(** * Confluence RAG chatbot: the service (ragService.ts) and its HTTP
      front (server.ts), embedded as pure functions over explicit state.

    JavaScript strings are sequences of UTF-16 code units; they are modelled
    as lists of code units so that [substring], [trim] and the [\s] class of
    regular expressions keep their meaning on non-ASCII input (U+00A0 is
    white space for JavaScript).  Calls that leave the process (the
    Confluence REST call, the vector store build, the chain call) take their
    outcome from an explicit argument. *)

From Stdlib Require Import List NArith Arith Bool Lia String Ascii.
From Stdlib Require Import Floats.SpecFloat.
Import ListNotations.

Set Implicit Arguments.
Set Warnings "-register-all".

(* ------------------------------------------------------------------ *)
(** ** Strings *)

Module JsString.

(** A UTF-16 code unit, and a string: a sequence of code units. *)
Abbreviation char := N (only parsing).
Abbreviation jsstring := (list N) (only parsing).

(** An ASCII literal as a JavaScript string. *)
Definition lit (s : string) : jsstring :=
  map N_of_ascii (list_ascii_of_string s).

(** [a === b] *)
Fixpoint eqb (a b : jsstring) : bool :=
  match a, b with
  | [], [] => true
  | x :: a', y :: b' => (x =? y)%N && eqb a' b'
  | _, _ => false
  end.

Definition LT_SIGN : char := 60%N.    (* < *)
Definition GT_SIGN : char := 62%N.    (* > *)
Definition AMP : char := 38%N.        (* & *)
Definition QUOT : char := 34%N.       (* double quote *)
Definition SPACE : char := 32%N.

(** The class [\s] of a regular expression without the [u] flag, which is
    also the set [String.prototype.trim] removes: WhiteSpace and
    LineTerminator code units. *)
Definition is_ws (c : char) : bool :=
  ((9 <=? c) && (c <=? 13)          (* \t \n \v \f \r *)
   || (c =? 32)
   || (c =? 160)                    (* U+00A0 *)
   || (c =? 5760)                   (* U+1680 *)
   || ((8192 <=? c) && (c <=? 8202))  (* U+2000 .. U+200A *)
   || (c =? 8232) || (c =? 8233)    (* U+2028, U+2029 *)
   || (c =? 8239)                   (* U+202F *)
   || (c =? 8287)                   (* U+205F *)
   || (c =? 12288)                  (* U+3000 *)
   || (c =? 65279))%N.              (* U+FEFF *)

(** [s.substring(0, n)] *)
Definition substring0 (n : nat) (s : jsstring) : jsstring := firstn n s.

Fixpoint dropWhile (p : char -> bool) (s : jsstring) : jsstring :=
  match s with
  | [] => []
  | c :: t => if p c then dropWhile p t else s
  end.

(** [s.trim()] *)
Definition trim (s : jsstring) : jsstring :=
  rev (dropWhile is_ws (rev (dropWhile is_ws s))).

(** [p] is a prefix of [s]. *)
Fixpoint starts_with (p s : jsstring) : bool :=
  match p, s with
  | [], _ => true
  | a :: p', b :: s' => (a =? b)%N && starts_with p' s'
  | _ :: _, [] => false
  end.


(** Two adjacent white-space code units somewhere in [s]. *)
Fixpoint has_ws_run (s : jsstring) : bool :=
  match s with
  | a :: ((b :: _) as t) => (is_ws a && is_ws b) || has_ws_run t
  | _ => false
  end.

(** *** [s.replace(/re/g, rep)]

    The regular expression is given by what it matches at the head of the
    remaining input: [matchAt s] is the length of the match that starts at
    the first code unit of [s], if there is one.  A global replace scans
    left to right; at a match it emits [rep] and resumes after the match,
    otherwise it copies one code unit.  [skip] counts the code units of
    the current match still to be passed over.  None of the expressions
    of this program matches the empty string, so a match of length 0 does
    not arise. *)
Section Replace.
Variable matchAt : jsstring -> option nat.
Variable rep : jsstring.

Fixpoint replace_from (skip : nat) (s : jsstring) : jsstring :=
  match s with
  | [] => []
  | c :: t =>
      match skip with
      | S k => replace_from k t
      | O =>
          match matchAt s with
          | Some (S k) => rep ++ replace_from k t
          | _ => c :: replace_from 0 t
          end
      end
  end.

Definition replaceAll (s : jsstring) : jsstring := replace_from 0 s.
End Replace.

(** A literal pattern such as [/&amp;/]. *)
Definition match_lit (pat s : jsstring) : option nat :=
  if starts_with pat s then Some (List.length pat) else None.

Fixpoint index_of (c : char) (s : jsstring) : option nat :=
  match s with
  | [] => None
  | x :: t => if (x =? c)%N then Some 0 else option_map S (index_of c t)
  end.

(** [/<[^>]*>/]: a [<], then everything up to and including the next [>];
    no match when no [>] follows. *)
Definition match_tag (s : jsstring) : option nat :=
  match s with
  | c :: t =>
      if (c =? LT_SIGN)%N then option_map (fun i => S (S i)) (index_of GT_SIGN t)
      else None
  | [] => None
  end.

Fixpoint ws_prefix (s : jsstring) : nat :=
  match s with
  | c :: t => if is_ws c then S (ws_prefix t) else 0
  | [] => 0
  end.

(** [/\s+/]: the longest non-empty run of white space. *)
Definition match_ws (s : jsstring) : option nat :=
  match ws_prefix s with
  | O => None
  | n => Some n
  end.

(** The first code unit is white space. *)
Definition starts_ws (s : jsstring) : bool :=
  match s with
  | c :: _ => is_ws c
  | [] => false
  end.


End JsString.

Import JsString.

(* ------------------------------------------------------------------ *)
(** ** ragService.ts *)

(** [stripHtml] *)
Definition stripHtml (html : jsstring) : jsstring :=
  let s1 := replaceAll match_tag [SPACE] html in
  let s2 := replaceAll (match_lit (lit "&nbsp;")) [SPACE] s1 in
  let s3 := replaceAll (match_lit (lit "&amp;")) [AMP] s2 in
  let s4 := replaceAll (match_lit (lit "&lt;")) [LT_SIGN] s3 in
  let s5 := replaceAll (match_lit (lit "&gt;")) [GT_SIGN] s4 in
  let s6 := replaceAll (match_lit (lit "&quot;")) [QUOT] s5 in
  let s7 := replaceAll match_ws [SPACE] s6 in
  trim s7.

(** A thrown [Error]; only its message is observed by this program. *)
Record JsError : Type := mkError { message : jsstring }.

(** The outcome of a call that may throw: [inl e] is [throw e]. *)
Definition Result (A : Type) : Type := (JsError + A)%type.

Definition ret {A : Type} (a : A) : Result A := inr a.
Definition throw {A : Type} (e : JsError) : Result A := inl e.
Definition bind {A B : Type} (r : Result A) (k : A -> Result B) : Result B :=
  match r with
  | inl e => inl e
  | inr a => k a
  end.

Notation "x <- r ;; k" := (bind r (fun x => k))
  (at level 61, r at next level, right associativity).

(** A page of the Confluence REST answer, with the fields the service
    reads: [id], [title], [body?.storage?.value], [version?.number],
    [space?.name]. *)
Record Page : Type := mkPage {
  page_id : jsstring;
  page_title : jsstring;
  page_body : option jsstring;
  page_version : option N;
  page_space : option jsstring
}.

Record Metadata : Type := mkMetadata {
  id : jsstring;
  title : jsstring;
  url : jsstring;
  version : option N;
  space : option jsstring
}.

(** LangChain's [Document]. *)
Record Document : Type := mkDocument {
  pageContent : jsstring;
  metadata : Metadata
}.

(** [process.env] *)
Record Env : Type := mkEnv {
  CONFLUENCE_URL : option jsstring;
  CONFLUENCE_USERNAME : option jsstring;
  CONFLUENCE_API_TOKEN : option jsstring;
  CONFLUENCE_SPACE_KEY : option jsstring
}.

(** [!v] for a variable of the environment: unset or empty. *)
Definition unset (v : option jsstring) : bool :=
  match v with
  | None => true
  | Some [] => true
  | Some (_ :: _) => false
  end.

Definition env_value (v : option jsstring) : jsstring :=
  match v with
  | Some s => s
  | None => []
  end.

(** The body of the loop of [fetchConfluencePages]: one document per page. *)
Definition toDocument (e : Env) (page : Page) : Document :=
  let htmlContent := match page_body page with
                     | Some (c :: t) => c :: t
                     | _ => []                       (* [|| ''] *)
                     end in
  let textContent := stripHtml htmlContent in
  {| pageContent := textContent;
     metadata :=
       {| id := page_id page;
          title := page_title page;
          url := env_value (CONFLUENCE_URL e) ++ lit "/spaces/"
                 ++ env_value (CONFLUENCE_SPACE_KEY e) ++ lit "/pages/"
                 ++ page_id page;
          version := page_version page;
          space := page_space page |} |}.

(** [fetchConfluencePages]; [response] is the outcome of [axios.get]:
    an error, or [response.data.results]. *)
Definition fetchConfluencePages (e : Env) (response : Result (list Page))
  : Result (list Document) :=
  if unset (CONFLUENCE_URL e) || unset (CONFLUENCE_USERNAME e)
     || unset (CONFLUENCE_API_TOKEN e) || unset (CONFLUENCE_SPACE_KEY e)
  then throw (mkError (lit "Missing Confluence configuration"))
  else
    pages <- response ;;
    ret (map (toDocument e) pages).

(** [MemoryVectorStore], seen through the one call the service makes:
    [indexed] is the array handed to [MemoryVectorStore.fromDocuments]. *)
Record MemoryVectorStore : Type := mkStore { indexed : list Document }.

(** [ConversationalRetrievalQAChain], built over the retriever
    [vectorStore.asRetriever(4)]. *)
Record Chain : Type := mkChain { retriever : MemoryVectorStore; topK : nat }.

Record ChatMessage : Type := mkMsg { role : jsstring; content : jsstring }.

(** The fields of a [ConfluenceRAGService] instance. *)
Record Service : Type := mkService {
  vectorStore : option MemoryVectorStore;
  chain : option Chain;
  chatHistory : list ChatMessage
}.

(** [new ConfluenceRAGService()] *)
Definition new_service : Service :=
  {| vectorStore := None; chain := None; chatHistory := [] |}.

(** What the outside decides during [initialize]: the environment, the
    answer of Confluence, and whether the embedding of the documents inside
    [MemoryVectorStore.fromDocuments] rejects. *)
Record InitWorld : Type := mkInitWorld {
  env : Env;
  confluence : Result (list Page);
  embedding_error : option JsError
}.

(** [MemoryVectorStore.fromDocuments(documents, embeddings)] *)
Definition fromDocuments (w : InitWorld) (documents : list Document)
  : Result MemoryVectorStore :=
  match embedding_error w with
  | Some e => throw e
  | None => ret {| indexed := documents |}
  end.

(** [initialize]: the outcome and the instance afterwards. *)
Definition initialize (w : InitWorld) (s : Service) : Result unit * Service :=
  match fetchConfluencePages (env w) (confluence w) with
  | inl e => (throw e, s)
  | inr documents =>
      if List.length documents =? 0
      then (throw (mkError (lit "No documents found in Confluence space")), s)
      else
        match fromDocuments w documents with
        | inl e => (throw e, s)
        | inr store =>
            (ret tt,
             {| vectorStore := Some store;
                chain := Some {| retriever := store; topK := 4 |};
                chatHistory := chatHistory s |})
        end
  end.

(** [array.map((x, idx) => f x idx)] *)
Fixpoint mapi_from {A B : Type} (f : A -> nat -> B) (idx : nat) (l : list A)
  : list B :=
  match l with
  | [] => []
  | x :: t => f x idx :: mapi_from f (S idx) t
  end.

Definition mapi {A B : Type} (f : A -> nat -> B) (l : list A) : list B :=
  mapi_from f 0 l.

(** The history as [query] formats it for the chain. *)
Definition formatHistory (h : list ChatMessage) : list (jsstring * jsstring) :=
  filter (fun pair => negb (JsString.eqb (fst pair) []))
    (mapi (fun msg idx =>
             if idx mod 2 =? 0 then (content msg, [])
             else ([], content msg)) h).

(** [array.slice(-n)] *)
Definition slice_last {A : Type} (n : nat) (l : list A) : list A :=
  skipn (List.length l - n) l.

Record ChainInput : Type := mkChainInput {
  question : jsstring;
  chat_history : list (jsstring * jsstring)
}.

Record ChainOutput : Type := mkChainOutput {
  text : jsstring;
  sourceDocuments : option (list Document)
}.

(** The behaviour of [chain.call] for one request. *)
Definition Generation : Type := ChainInput -> Result ChainOutput.

Module Source.
Record t : Type := mk { title : jsstring; url : jsstring; excerpt : jsstring }.
End Source.

Definition toSource (doc : Document) : Source.t :=
  {| Source.title := title (metadata doc);
     Source.url := url (metadata doc);
     Source.excerpt := substring0 200 (pageContent doc) ++ lit "..." |}.

Record QueryResult : Type := mkQueryResult {
  answer : jsstring;
  sources : list Source.t
}.

Definition NOT_INITIALIZED : JsError :=
  mkError (lit "RAG system not initialized. Call initialize() first.").

(** [query]: the outcome and the instance afterwards. *)
Definition query (gen : Generation) (q : jsstring) (s : Service)
  : Result QueryResult * Service :=
  match chain s with
  | None => (throw NOT_INITIALIZED, s)
  | Some _ =>
      let formattedHistory := formatHistory (chatHistory s) in
      match gen {| question := q; chat_history := formattedHistory |} with
      | inl e => (throw e, s)
      | inr result =>
          let h1 := chatHistory s ++ [ {| role := lit "user"; content := q |} ] in
          let h2 := h1 ++ [ {| role := lit "assistant"; content := text result |} ] in
          let h3 := if 10 <? List.length h2 then slice_last 10 h2 else h2 in
          (ret {| answer := text result;
                  sources := match sourceDocuments result with
                             | Some docs => map toSource docs
                             | None => []
                             end |},
           {| vectorStore := vectorStore s; chain := chain s; chatHistory := h3 |})
      end
  end.

(** [clearHistory] *)
Definition clearHistory (s : Service) : Service :=
  {| vectorStore := vectorStore s; chain := chain s; chatHistory := [] |}.

(** The calls a client of the service can make, and a run of them. *)
Inductive Op : Type :=
| OpInitialize (w : InitWorld)
| OpQuery (gen : Generation) (q : jsstring)
| OpClear.

Definition step (s : Service) (op : Op) : Service :=
  match op with
  | OpInitialize w => snd (initialize w s)
  | OpQuery gen q => snd (query gen q s)
  | OpClear => clearHistory s
  end.

Definition run (ops : list Op) (s : Service) : Service := fold_left step ops s.

(** A chain call that answers [a] and cites nothing. *)
Definition answering (a : jsstring) : Generation :=
  fun _ => ret {| text := a; sourceDocuments := None |}.

Definition user_turn (q : jsstring) : ChatMessage :=
  {| role := lit "user"; content := q |}.

Definition assistant_turn (a : jsstring) : ChatMessage :=
  {| role := lit "assistant"; content := a |}.

(** The turns of a list of exchanges (question, answer). *)
Definition turns_of (qas : list (jsstring * jsstring)) : list ChatMessage :=
  flat_map (fun qa => [user_turn (fst qa); assistant_turn (snd qa)]) qas.

(** No two neighbouring turns have the same role. *)
Fixpoint alternates (h : list ChatMessage) : Prop :=
  match h with
  | a :: ((b :: _) as t) => role a <> role b /\ alternates t
  | _ => True
  end.

(** The pairing the specification describes: scan the turns in order and
    pair each user turn with the assistant turn that immediately follows
    it; a turn without counterpart is left out. *)
Fixpoint pair_turns_spec (h : list ChatMessage) : list (jsstring * jsstring) :=
  match h with
  | u :: ((a :: rest) as t) =>
      if JsString.eqb (role u) (lit "user") && JsString.eqb (role a) (lit "assistant")
      then (content u, content a) :: pair_turns_spec rest
      else pair_turns_spec t
  | _ => []
  end.

(* ------------------------------------------------------------------ *)
(** ** server.ts *)

(** A JavaScript value that JSON can carry, or [undefined]. The fields of
    an object are its own properties in insertion order. *)
Inductive JSValue : Type :=
| JUndefined
| JNull
| JBool (b : bool)
| JNumber (x : spec_float)
| JString (s : jsstring)
| JArray (items : list JSValue)
| JObject (fields : list (jsstring * JSValue)).

(** [ToBoolean]: what [!v] negates. *)
Definition truthy (v : JSValue) : bool :=
  match v with
  | JUndefined | JNull => false
  | JBool b => b
  | JNumber (S754_zero _) | JNumber S754_nan => false
  | JNumber _ => true
  | JString [] => false
  | JString (_ :: _) => true
  | JArray _ | JObject _ => true
  end.

Definition typeof (v : JSValue) : jsstring :=
  match v with
  | JUndefined => lit "undefined"
  | JNull => lit "object"
  | JBool _ => lit "boolean"
  | JNumber _ => lit "number"
  | JString _ => lit "string"
  | JArray _ | JObject _ => lit "object"
  end.

Fixpoint lookup (key : jsstring) (fields : list (jsstring * JSValue)) : JSValue :=
  match fields with
  | [] => JUndefined
  | (k, v) :: t => if JsString.eqb k key then v else lookup key t
  end.

(** [const { message } = body]: destructuring [undefined] or [null] throws
    a TypeError; a value without the property gives [undefined]. *)
Definition destructure_message (body : JSValue) : Result JSValue :=
  match body with
  | JUndefined =>
      throw (mkError
               (lit "Cannot destructure property 'message' of 'req.body' as it is undefined."))
  | JNull =>
      throw (mkError
               (lit "Cannot destructure property 'message' of 'req.body' as it is null."))
  | JObject fields => ret (lookup (lit "message") fields)
  | _ => ret JUndefined
  end.

(** The string a value is once [typeof v === 'string'] has been checked. *)
Definition string_of (v : JSValue) : jsstring :=
  match v with
  | JString s => s
  | _ => []
  end.

Record Response : Type := mkResponse { status : nat; body : JSValue }.

(** [res.json(v)] answers with status 200 unless [res.status] was called. *)
Definition json (v : JSValue) : Response := {| status := 200; body := v |}.

Definition status_json (code : nat) (v : JSValue) : Response :=
  {| status := code; body := v |}.

(** The module-level state of server.ts. *)
Record Server : Type := mkServer {
  ragService : Service;
  isInitialized : bool;
  initializationError : option jsstring
}.

Definition new_server : Server :=
  {| ragService := new_service; isInitialized := false; initializationError := None |}.

(** The start-up block: [await ragService.initialize()], then either
    [isInitialized = true] or [initializationError = error.message]. *)
Definition startup (w : InitWorld) (srv : Server) : Server :=
  match initialize w (ragService srv) with
  | (inr _, s') =>
      {| ragService := s'; isInitialized := true;
         initializationError := initializationError srv |}
  | (inl e, s') =>
      {| ragService := s'; isInitialized := isInitialized srv;
         initializationError := Some (message e) |}
  end.

Definition nullable (v : option jsstring) : JSValue :=
  match v with
  | Some s => JString s
  | None => JNull
  end.

(** [error.message || 'Internal server error'] *)
Definition error_body (e : JsError) : JSValue :=
  JObject [(lit "error",
            JString (match message e with
                     | [] => lit "Internal server error"
                     | m => m
                     end))].

Definition source_json (src : Source.t) : JSValue :=
  JObject [(lit "title", JString (Source.title src));
           (lit "url", JString (Source.url src));
           (lit "excerpt", JString (Source.excerpt src))].

(** What a handler did: its response, the server afterwards, and the
    questions it passed to [ragService.query], in order. *)
Record Handled : Type := mkHandled {
  response : Response;
  server : Server;
  queries : list jsstring
}.

(** GET /api/health *)
Definition get_health (srv : Server) : Response :=
  json (JObject [(lit "status",
                  JString (if isInitialized srv then lit "ready" else lit "initializing"));
                 (lit "error", nullable (initializationError srv))]).

(** POST /api/chat; [gen] is how the chain would answer this request. *)
Definition post_chat (gen : Generation) (reqBody : JSValue) (srv : Server) : Handled :=
  if negb (isInitialized srv) then
    {| response :=
         status_json 503
           (JObject [(lit "error", JString (lit "Service is still initializing. Please wait..."));
                     (lit "initError", nullable (initializationError srv))]);
       server := srv;
       queries := [] |}
  else
    match destructure_message reqBody with
    | inl e => {| response := status_json 500 (error_body e); server := srv; queries := [] |}
    | inr msg =>
        if negb (truthy msg) || negb (JsString.eqb (typeof msg) (lit "string")) then
          {| response := status_json 400 (JObject [(lit "error", JString (lit "Message is required"))]);
             server := srv;
             queries := [] |}
        else
          let (outcome, s') := query gen (string_of msg) (ragService srv) in
          let srv' := {| ragService := s';
                         isInitialized := isInitialized srv;
                         initializationError := initializationError srv |} in
          match outcome with
          | inr result =>
              {| response :=
                   json (JObject [(lit "answer", JString (answer result));
                                  (lit "sources", JArray (map source_json (sources result)))]);
                 server := srv';
                 queries := [string_of msg] |}
          | inl e =>
              {| response := status_json 500 (error_body e);
                 server := srv';
                 queries := [string_of msg] |}
          end
    end.

(** POST /api/clear *)
Definition post_clear (srv : Server) : Handled :=
  {| response := json (JObject [(lit "message", JString (lit "Chat history cleared"))]);
     server := {| ragService := clearHistory (ragService srv);
                  isInitialized := isInitialized srv;
                  initializationError := initializationError srv |};
     queries := [] |}.

(** The own properties of a JSON object body. *)
Definition has_field (key : jsstring) (v : JSValue) : bool :=
  match v with
  | JObject fields => existsb (fun kv => JsString.eqb (fst kv) key) fields
  | _ => false
  end.

(** One successful query per exchange (question, answer), in order. *)
Definition asking (qas : list (jsstring * jsstring)) : list Op :=
  map (fun qa => OpQuery (answering (snd qa)) (fst qa)) qas.

(** The number of turns with role [r]. *)
Definition count_role (r : jsstring) (h : list ChatMessage) : nat :=
  List.length (filter (fun m => JsString.eqb (role m) r) h).

(** The history is the turns of at most five whole exchanges. *)
Definition whole_exchanges (s : Service) : Prop :=
  exists qas, chatHistory s = turns_of qas /\ List.length qas <= 5.

(* ------------------------------------------------------------------ *)
(** ** The life of the server process *)

(** A request the server answers. *)
Inductive Request : Type :=
| GetHealth
| PostChat (gen : Generation) (reqBody : JSValue)
| PostClear.

Definition handle (srv : Server) (r : Request) : Handled :=
  match r with
  | GetHealth => {| response := get_health srv; server := srv; queries := [] |}
  | PostChat gen reqBody => post_chat gen reqBody srv
  | PostClear => post_clear srv
  end.

Definition serve (srv : Server) (r : Request) : Server := server (handle srv r).

Definition serve_all (rs : list Request) (srv : Server) : Server :=
  fold_left serve rs srv.

(** The start-up block runs once: some requests are answered while
    [initialize] is pending, then it settles, then the others follow. *)
Definition lifetime (before : list Request) (w : InitWorld) (after : list Request)
  : Server :=
  serve_all after (startup w (serve_all before new_server)).

(** The calls of the service a request makes. *)
Definition ops_of (srv : Server) (r : Request) : list Op :=
  match r with
  | GetHealth => []
  | PostChat gen reqBody => map (OpQuery gen) (queries (post_chat gen reqBody srv))
  | PostClear => [OpClear]
  end.

(* ------------------------------------------------------------------ *)
(** ** app.js: what the page sends and how it reads /api/health *)

(** [v.key] for a key that is neither an index nor [length]; [None] is the
    TypeError of a property read on [null] or [undefined]. *)
Definition property (key : jsstring) (v : JSValue) : option JSValue :=
  match v with
  | JUndefined | JNull => None
  | JObject fields => Some (lookup key fields)
  | _ => Some JUndefined
  end.

(** [classList.add] and [classList.remove] *)
Definition classList_add (c : jsstring) (l : list jsstring) : list jsstring :=
  if existsb (JsString.eqb c) l then l else l ++ [c].

Definition classList_remove (c : jsstring) (l : list jsstring) : list jsstring :=
  filter (fun x => negb (JsString.eqb x c)) l.

(** The state of the page the two functions touch: [isReady], the text and
    the classes of the status element, [sendButton.disabled] and
    [messageInput.value]. *)
Record Page_ui : Type := mkUi {
  isReady : bool;
  statusText : jsstring;
  statusClasses : list jsstring;
  sendDisabled : bool;
  inputValue : jsstring
}.

Section CheckHealth.
(** String concatenation converts its right operand with [ToString]. *)
Variable ToString : JSValue -> jsstring.

Definition connection_error (ui : Page_ui) : Page_ui * option nat :=
  ({| isReady := isReady ui;
      statusText := lit "Connection error";
      statusClasses := classList_add (lit "error") (statusClasses ui);
      sendDisabled := sendDisabled ui;
      inputValue := inputValue ui |},
   Some 5000).

(** [checkHealth]; [outcome] is the parsed answer of [fetch('/api/health')],
    or [None] when the fetch or the parse rejects.  The second component is
    the delay of the [setTimeout(checkHealth, ...)] it leaves, if any. *)
Definition checkHealth (outcome : option JSValue) (ui : Page_ui)
  : Page_ui * option nat :=
  match outcome with
  | None => connection_error ui
  | Some data =>
      match property (lit "status") data with
      | None => connection_error ui
      | Some st =>
          if match st with
             | JString s => JsString.eqb s (lit "ready")
             | _ => false
             end
          then
            ({| isReady := true;
                statusText := lit "Ready";
                statusClasses :=
                  classList_remove (lit "error")
                    (classList_add (lit "ready") (statusClasses ui));
                sendDisabled := false;
                inputValue := inputValue ui |},
             None)
          else
            match property (lit "error") data with
            | None => connection_error ui
            | Some err =>
                if truthy err then
                  ({| isReady := isReady ui;
                      statusText := lit "Error: " ++ ToString err;
                      statusClasses :=
                        classList_remove (lit "ready")
                          (classList_add (lit "error") (statusClasses ui));
                      sendDisabled := sendDisabled ui;
                      inputValue := inputValue ui |},
                   None)
                else
                  ({| isReady := isReady ui;
                      statusText := lit "Initializing...";
                      statusClasses := statusClasses ui;
                      sendDisabled := sendDisabled ui;
                      inputValue := inputValue ui |},
                   Some 2000)
            end
      end
  end.
End CheckHealth.

(** [sendMessage] up to its [fetch]: the body it posts to /api/chat, or
    [None] when it returns without sending. *)
Definition sendMessage_request (ui : Page_ui) : option JSValue :=
  let message := trim (inputValue ui) in
  if negb (truthy (JString message)) || negb (isReady ui) then None
  else Some (JObject [(lit "message", JString message)]).

(** The user types [v] into the message box. *)
Definition typing (v : jsstring) (ui : Page_ui) : Page_ui :=
  {| isReady := isReady ui; statusText := statusText ui;
     statusClasses := statusClasses ui; sendDisabled := sendDisabled ui;
     inputValue := v |}.

(** Text that normalisation has nothing to do on: no [<], no [&], white
    space only as single spaces between other code units. *)
Definition plain_text (t : jsstring) : Prop :=
  ~ In LT_SIGN t /\ ~ In AMP t
  /\ (forall c, In c t -> is_ws c = true -> c = SPACE)
  /\ has_ws_run t = false
  /\ starts_ws t = false
  /\ starts_ws (rev t) = false.

(** A message the chat handler lets through: a string that is not empty. *)
Definition valid_message (v : JSValue) : bool :=
  match v with
  | JString (_ :: _) => true
  | _ => false
  end.

(* ------------------------------------------------------------------ *)
(** ** Sample inputs *)

(** A chain call that throws an error with message [m]. *)
Definition failing (m : jsstring) : Generation := fun _ => throw (mkError m).

Definition sample_chain : Chain :=
  {| retriever := {| indexed := [] |}; topK := 4 |}.

(** An initialised service that has answered one question. *)
Definition ready_service : Service :=
  {| vectorStore := Some {| indexed := [] |};
     chain := Some sample_chain;
     chatHistory := [user_turn (lit "q"); assistant_turn (lit "a")] |}.

(** The server once start-up has succeeded. *)
Definition ready_server : Server :=
  {| ragService := ready_service; isInitialized := true; initializationError := None |}.

(** A chain call that answers [a] and cites [docs]. *)
Definition citing (docs : list Document) (a : jsstring) : Generation :=
  fun _ => ret {| text := a; sourceDocuments := Some docs |}.

Definition sample_metadata : Metadata :=
  {| id := lit "42"; title := lit "FAQ"; url := lit "https://wiki/spaces/DOC/pages/42";
     version := Some 3%N; space := Some (lit "Docs") |}.

(** A document whose text has 50 code units. *)
Definition short_doc : Document :=
  {| pageContent := lit "Restart the agent, then open the settings panel.  ";
     metadata := sample_metadata |}.

Definition sample_env : Env :=
  {| CONFLUENCE_URL := Some (lit "https://wiki");
     CONFLUENCE_USERNAME := Some (lit "bot");
     CONFLUENCE_API_TOKEN := Some (lit "token");
     CONFLUENCE_SPACE_KEY := Some (lit "DOC") |}.

(** Confluence answers with two pages; the second has markup but no text. *)
Definition two_page_world : InitWorld :=
  {| env := sample_env;
     confluence := ret [ {| page_id := lit "1"; page_title := lit "Setup Guide";
                            page_body := Some (lit "<p>Install it</p>");
                            page_version := Some 1%N; page_space := Some (lit "Docs") |};
                         {| page_id := lit "2"; page_title := lit "Draft";
                            page_body := Some (lit "<p> </p>");
                            page_version := None; page_space := None |} ];
     embedding_error := None |}.

(** An initialised service that has not been asked anything yet. *)
Definition fresh_service : Service :=
  {| vectorStore := Some {| indexed := [] |};
     chain := Some sample_chain;
     chatHistory := [] |}.

Definition eleven_exchanges : list (jsstring * jsstring) :=
  [ (lit "q1", lit "a1"); (lit "q2", lit "a2"); (lit "q3", lit "a3");
    (lit "q4", lit "a4"); (lit "q5", lit "a5"); (lit "q6", lit "a6");
    (lit "q7", lit "a7"); (lit "q8", lit "a8"); (lit "q9", lit "a9");
    (lit "q10", lit "a10"); (lit "q11", lit "a11") ].

(** Nothing is configured. *)
Definition blank_env : Env :=
  {| CONFLUENCE_URL := None; CONFLUENCE_USERNAME := None;
     CONFLUENCE_API_TOKEN := None; CONFLUENCE_SPACE_KEY := None |}.

Definition blank_world : InitWorld :=
  {| env := blank_env; confluence := ret []; embedding_error := None |}.

(** All four variables of the environment are set and not empty. *)
Definition configured (e : Env) : bool :=
  negb (unset (CONFLUENCE_URL e) || unset (CONFLUENCE_USERNAME e)
        || unset (CONFLUENCE_API_TOKEN e) || unset (CONFLUENCE_SPACE_KEY e)).

(* ------------------------------------------------------------------ *)
(** * Properties *)

(** ** Conversation state: reset *)

(** C8. From every state of the service, [clearHistory] leaves no turn
    (whatever the other fields hold, which it does not touch), applying it
    twice is the same as applying it once, and the history read right after
    it, also as formatted for the chain, is the empty sequence. *)
Theorem clearHistory_empties_and_is_idempotent :
  forall s : Service,
    chatHistory (clearHistory s) = []
    /\ vectorStore (clearHistory s) = vectorStore s
    /\ chain (clearHistory s) = chain s
    /\ clearHistory (clearHistory s) = clearHistory s
    /\ formatHistory (chatHistory (clearHistory s)) = []
    /\ chatHistory (ragService (server (post_clear
         {| ragService := s; isInitialized := true; initializationError := None |}))) = [].
Proof.
  intros s. unfold clearHistory; simpl.
  repeat split; reflexivity.
Qed.

(** ** Failure of the chain call *)

(** C6. When the service is initialised and the chain call throws [e] on
    the request built from the question and the formatted history, [query]
    throws that same error, message included, and the instance, history
    included, is what it was before the call. *)
Theorem query_generation_failure_keeps_state :
  forall (gen : Generation) (q : jsstring) (s : Service) (c : Chain) (e : JsError),
    chain s = Some c ->
    gen {| question := q; chat_history := formatHistory (chatHistory s) |} = inl e ->
    query gen q s = (throw e, s)
    /\ chatHistory (snd (query gen q s)) = chatHistory s.
Proof.
  intros gen q s c e Hc Hg.
  assert (Hq : query gen q s = (throw e, s)).
  { unfold query. rewrite Hc, Hg. reflexivity. }
  rewrite Hq. simpl. auto.
Qed.

Lemma query_generation_failure_keeps_state_witness :
  query (failing (lit "rate limit")) (lit "next") ready_service
  = (throw (mkError (lit "rate limit")), ready_service)
  /\ chatHistory (snd (query (failing (lit "rate limit")) (lit "next") ready_service))
     = chatHistory ready_service.
Proof.
  apply (query_generation_failure_keeps_state
           (failing (lit "rate limit")) (lit "next") ready_service
           (c := sample_chain) (e := mkError (lit "rate limit"))).
  - reflexivity.
  - reflexivity.
Defined.

(** ** Readiness gate and request validation *)

(** A property of the service kept by every call holds after every run. *)
Lemma run_invariant (P : Service -> Prop) :
  (forall s op, P s -> P (step s op)) ->
  forall ops s, P s -> P (run ops s).
Proof.
  intros Hstep ops. unfold run.
  induction ops as [|op ops IH]; intros s Hs; simpl.
  - exact Hs.
  - apply IH, Hstep, Hs.
Qed.

(** The chain is only ever set together with the vector store. *)
Lemma chain_needs_store :
  forall ops, vectorStore (run ops new_service) = None ->
              chain (run ops new_service) = None.
Proof.
  intros ops.
  apply (run_invariant (fun s => vectorStore s = None -> chain s = None)).
  - intros s [w|gen q|] Hs; simpl.
    + unfold initialize.
      destruct (fetchConfluencePages (env w) (confluence w)) as [e|docs]; simpl; auto.
      destruct (List.length docs =? 0); simpl; auto.
      destruct (fromDocuments w docs); simpl; auto. discriminate.
    + unfold query. destruct (chain s) eqn:Hc; simpl; auto.
      destruct (gen _); simpl; auto.
      intros Hv. apply Hs in Hv. congruence.
    + exact Hs.
  - reflexivity.
Qed.

(** C7. While [isInitialized] is false, POST /api/chat answers 503 at once,
    whatever the body: the answer has an [error] field and an [initError]
    field holding the recorded initialisation error (the message of the
    error [initialize] threw at start-up, when it threw), the server state
    is untouched and [ragService.query] is not called.  [query] itself
    throws the not-initialised error whenever the chain is unset, which is
    the case in every state the service reaches before the vector store is
    built. *)
Theorem chat_before_ready_is_rejected :
  forall (gen : Generation) (reqBody : JSValue) (srv : Server),
    isInitialized srv = false ->
    (let h := post_chat gen reqBody srv in
     status (response h) = 503
     /\ has_field (lit "error") (body (response h)) = true
     /\ has_field (lit "initError") (body (response h)) = true
     /\ (exists fields, body (response h) = JObject fields
         /\ lookup (lit "initError") fields = nullable (initializationError srv))
     /\ server h = srv
     /\ queries h = [])
    /\ (forall w e s',
          initialize w new_service = (inl e, s') ->
          let h := post_chat gen reqBody (startup w new_server) in
          status (response h) = 503
          /\ (exists fields, body (response h) = JObject fields
              /\ lookup (lit "initError") fields = JString (message e))
          /\ queries h = [])
    /\ (forall q s, chain s = None -> query gen q s = (throw NOT_INITIALIZED, s))
    /\ (forall ops q,
          vectorStore (run ops new_service) = None ->
          query gen q (run ops new_service) = (throw NOT_INITIALIZED, run ops new_service)).
Proof.
  intros gen reqBody srv Hinit.
  assert (Hq : forall q s, chain s = None -> query gen q s = (throw NOT_INITIALIZED, s)).
  { intros q s Hc. unfold query. rewrite Hc. reflexivity. }
  split; [|split; [|split]].
  - unfold post_chat. rewrite Hinit. simpl.
    repeat split; try reflexivity.
    eexists. split; reflexivity.
  - intros w e s' Hi. unfold startup. simpl ragService. rewrite Hi.
    unfold post_chat. simpl. repeat split.
    eexists. split; reflexivity.
  - exact Hq.
  - intros ops q Hv. apply Hq, chain_needs_store, Hv.
Qed.

Lemma chat_before_ready_is_rejected_witness :
  status (response (post_chat (answering (lit "a"))
                      (JObject [(lit "message", JString (lit "hello"))]) new_server)) = 503.
Proof.
  exact (proj1 (proj1 (chat_before_ready_is_rejected
                         (answering (lit "a"))
                         (JObject [(lit "message", JString (lit "hello"))])
                         new_server eq_refl))).
Defined.

(** C10. Once the server is initialised, a body whose [message] is the
    empty string is answered 400 with an [error] body, the server state is
    untouched and [ragService.query] is not called: the empty string is of
    type string, and it is the falsiness half of the one test
    [!message || typeof message !== 'string'] that rejects it. *)
Theorem empty_message_is_rejected :
  forall (gen : Generation) (fields : list (jsstring * JSValue)) (srv : Server),
    isInitialized srv = true ->
    lookup (lit "message") fields = JString [] ->
    post_chat gen (JObject fields) srv
    = {| response := status_json 400
                       (JObject [(lit "error", JString (lit "Message is required"))]);
         server := srv;
         queries := [] |}
    /\ typeof (JString []) = lit "string"
    /\ truthy (JString []) = false.
Proof.
  intros gen fields srv Hinit Hmsg.
  unfold post_chat. rewrite Hinit. simpl. rewrite Hmsg. simpl.
  repeat split.
Qed.

Lemma empty_message_is_rejected_witness :
  post_chat (answering (lit "a")) (JObject [(lit "message", JString [])]) ready_server
  = {| response := status_json 400
                     (JObject [(lit "error", JString (lit "Message is required"))]);
       server := ready_server;
       queries := [] |}
  /\ typeof (JString []) = lit "string"
  /\ truthy (JString []) = false.
Proof.
  apply (empty_message_is_rejected (answering (lit "a"))
           [(lit "message", JString [])] ready_server).
  - reflexivity.
  - reflexivity.
Defined.

(** ** Sources *)

(** C2, as the claim states it, fails: for a document whose text has 50
    code units, the excerpt returned by [query] is not the text itself but
    the text followed by the three dots. *)
Lemma excerpt_of_short_text_has_marker :
  List.length (pageContent short_doc) = 50
  /\ Source.excerpt (toSource short_doc) <> pageContent short_doc
  /\ fst (query (citing [short_doc] (lit "a")) (lit "q") ready_service)
     = ret {| answer := lit "a";
              sources := [ {| Source.title := lit "FAQ";
                              Source.url := lit "https://wiki/spaces/DOC/pages/42";
                              Source.excerpt := pageContent short_doc ++ lit "..." |} ] |}.
Proof.
  split; [reflexivity|]. split; [|reflexivity].
  vm_compute. discriminate.
Qed.

(** C2, amended. The excerpt of every document is the first 200 code units
    of its text followed by the marker [...], whether or not the text is
    longer than 200; for a text of at most 200 code units (50, say) it is
    the whole text followed by the marker.  The sources a successful
    [query] returns are these, one per document the chain call reports, in
    order. *)
Theorem excerpt_is_prefix_then_marker :
  forall doc : Document,
    Source.excerpt (toSource doc) = substring0 200 (pageContent doc) ++ lit "..."
    /\ (List.length (pageContent doc) <= 200 ->
        Source.excerpt (toSource doc) = pageContent doc ++ lit "...")
    /\ (forall gen q s r s' result docs,
          query gen q s = (inr r, s') ->
          gen {| question := q; chat_history := formatHistory (chatHistory s) |} = inr result ->
          sourceDocuments result = Some docs ->
          sources r = map toSource docs).
Proof.
  intros doc. split; [reflexivity|]. split.
  - intros Hlen. cbn [toSource Source.excerpt]. unfold substring0.
    rewrite firstn_all2 by exact Hlen. reflexivity.
  - intros gen q s r s' result docs Hq Hg Hd.
    unfold query in Hq. destruct (chain s); [|discriminate].
    rewrite Hg in Hq. inversion Hq; subst. simpl. rewrite Hd. reflexivity.
Qed.

Lemma excerpt_is_prefix_then_marker_witness :
  Source.excerpt (toSource short_doc) = pageContent short_doc ++ lit "...".
Proof.
  apply (proj1 (proj2 (excerpt_is_prefix_then_marker short_doc))).
  vm_compute. lia.
Defined.

(** ** Index build *)

(** C3, as the claim states it, fails: of two fetched pages the second
    normalises to the empty text, initialisation succeeds, and the array
    handed to the vector store holds both documents, the empty one
    included; its length is the number of pages, not less. *)
Lemma empty_document_is_indexed :
  fst (initialize two_page_world new_service) = ret tt
  /\ option_map (fun store => map pageContent (indexed store))
       (vectorStore (snd (initialize two_page_world new_service)))
     = Some [lit "Install it"; []]
  /\ option_map (fun store => List.length (indexed store))
       (vectorStore (snd (initialize two_page_world new_service)))
     = Some 2.
Proof. vm_compute. repeat split. Qed.

(** C3, amended. When [initialize] succeeds, Confluence answered with a
    list of pages and the vector store is built from exactly one document
    per page, in order: every fetched page, also one whose normalised text
    is empty, is handed to the build, and the number of documents handed
    over equals (so is at most, and never less than) the number of pages. *)
Theorem every_fetched_page_is_indexed :
  forall (w : InitWorld) (s s' : Service),
    initialize w s = (inr tt, s') ->
    exists pages,
      confluence w = inr pages
      /\ vectorStore s' = Some {| indexed := map (toDocument (env w)) pages |}
      /\ List.length (map (toDocument (env w)) pages) = List.length pages
      /\ (forall page, In page pages ->
            In (toDocument (env w) page) (map (toDocument (env w)) pages)).
Proof.
  intros w s s' Hi. unfold initialize, fetchConfluencePages in Hi.
  destruct (unset _ || unset _ || unset _ || unset _); [discriminate|].
  destruct (confluence w) as [e|pages]; [discriminate|].
  simpl in Hi.
  destruct (List.length (map (toDocument (env w)) pages) =? 0); [discriminate|].
  unfold fromDocuments in Hi.
  destruct (embedding_error w); [discriminate|].
  simpl in Hi. inversion Hi; subst; clear Hi.
  exists pages. simpl. repeat split.
  - apply length_map.
  - intros page Hin. apply in_map, Hin.
Qed.

Lemma every_fetched_page_is_indexed_witness :
  exists pages,
    confluence two_page_world = inr pages
    /\ vectorStore (snd (initialize two_page_world new_service))
       = Some {| indexed := map (toDocument (env two_page_world)) pages |}
    /\ List.length (map (toDocument (env two_page_world)) pages) = List.length pages
    /\ (forall page, In page pages ->
          In (toDocument (env two_page_world) page)
             (map (toDocument (env two_page_world)) pages)).
Proof.
  apply (every_fetched_page_is_indexed two_page_world new_service
           (s' := snd (initialize two_page_world new_service))).
  vm_compute. reflexivity.
Defined.

(** ** History handed to the chain *)

Lemma mapi_from_one_side_empty (h : list ChatMessage) :
  forall idx,
    Forall (fun pair : jsstring * jsstring => fst pair = [] \/ snd pair = [])
      (mapi_from (fun msg idx =>
                    if idx mod 2 =? 0 then (content msg, [])
                    else ([], content msg)) idx h).
Proof.
  induction h as [|m h IH]; intros idx; cbn [mapi_from]; constructor.
  - destruct (_ =? _); simpl; auto.
  - apply IH.
Qed.

(** [query] consults the chain on one request only: the question with the
    history formatted by [formatHistory]. *)
Lemma query_hands_formatted_history (gen gen' : Generation) q s :
  gen {| question := q; chat_history := formatHistory (chatHistory s) |}
  = gen' {| question := q; chat_history := formatHistory (chatHistory s) |} ->
  query gen q s = query gen' q s.
Proof. intros H. unfold query. rewrite H. reflexivity. Qed.

(** C1. The code does not pair a question with its answer. Whatever the
    history, every pair [query] formats for the chain has the empty string
    where the answer belongs; on the history of one exchange (q, a) it
    yields [(q, '')], whereas scanning the turns and pairing the user turn
    with the assistant turn that follows yields [(q, a)]. *)
Theorem formatHistory_drops_answers :
  (forall h : list ChatMessage,
     Forall (fun pair => snd pair = []) (formatHistory h))
  /\ formatHistory [user_turn (lit "q"); assistant_turn (lit "a")] = [(lit "q", [])]
  /\ pair_turns_spec [user_turn (lit "q"); assistant_turn (lit "a")] = [(lit "q", lit "a")].
Proof.
  split; [|split; reflexivity].
  intros h. unfold formatHistory, mapi.
  apply Forall_forall. intros pair Hin.
  apply filter_In in Hin. destruct Hin as [Hin Hkeep].
  pose proof (mapi_from_one_side_empty h 0) as Hall.
  rewrite Forall_forall in Hall. destruct (Hall pair Hin) as [Hfst|Hsnd].
  - destruct pair as [a b]. simpl in Hfst, Hkeep. subst a. discriminate Hkeep.
  - exact Hsnd.
Qed.

(** ** Conversation state: bound and alternation *)

Lemma turns_of_app (l m : list (jsstring * jsstring)) :
  turns_of (l ++ m) = turns_of l ++ turns_of m.
Proof. unfold turns_of. apply flat_map_app. Qed.

Lemma length_turns_of (l : list (jsstring * jsstring)) :
  List.length (turns_of l) = 2 * List.length l.
Proof.
  induction l as [|x l IH]; [reflexivity|].
  change (turns_of (x :: l))
    with (user_turn (fst x) :: assistant_turn (snd x) :: turns_of l).
  cbn [List.length]. rewrite IH. lia.
Qed.

Lemma skipn_turns_of (k : nat) :
  forall l, skipn (2 * k) (turns_of l) = turns_of (skipn k l).
Proof.
  induction k as [|k IH]; intros l; [reflexivity|].
  destruct l as [|x l]; [reflexivity|].
  replace (2 * S k) with (S (S (2 * k))) by lia.
  simpl skipn. apply IH.
Qed.

Lemma slice_last_turns_of (l : list (jsstring * jsstring)) :
  slice_last 10 (turns_of l) = turns_of (slice_last 5 l).
Proof.
  unfold slice_last. rewrite length_turns_of.
  replace (2 * List.length l - 10) with (2 * (List.length l - 5)) by lia.
  apply skipn_turns_of.
Qed.

Lemma slice_last_short {A : Type} (n : nat) (l : list A) :
  List.length l <= n -> slice_last n l = l.
Proof.
  intros H. unfold slice_last.
  replace (List.length l - n) with 0 by lia. reflexivity.
Qed.

Lemma length_slice_last {A : Type} (n : nat) (l : list A) :
  List.length (slice_last n l) <= n.
Proof. unfold slice_last. rewrite length_skipn. lia. Qed.

Lemma slice_last_app {A : Type} (n : nat) (l m : list A) :
  slice_last n (slice_last n l ++ m) = slice_last n (l ++ m).
Proof.
  unfold slice_last.
  rewrite length_app, length_skipn, length_app.
  set (d := List.length l - n).
  assert (Hd : d <= List.length l) by (unfold d; lia).
  replace (skipn d l ++ m) with (skipn d (l ++ m)).
  - rewrite skipn_skipn. f_equal. unfold d. lia.
  - rewrite skipn_app. replace (d - List.length l) with 0 by lia. reflexivity.
Qed.

(** The history after a successful [query]: both turns appended, then the
    last ten kept. *)
Lemma query_success_history gen q s r s' :
  query gen q s = (inr r, s') ->
  chatHistory s' = slice_last 10 (chatHistory s ++ [user_turn q; assistant_turn (answer r)])
  /\ vectorStore s' = vectorStore s /\ chain s' = chain s.
Proof.
  unfold query. destruct (chain s) as [c|]; [|discriminate].
  destruct (gen _) as [e|result]; [discriminate|].
  intros H. inversion H; subst; clear H. simpl.
  rewrite <- app_assoc. simpl.
  split; [|split; reflexivity].
  fold (user_turn q). fold (assistant_turn (text result)).
  destruct (10 <? _) eqn:Hlt; [reflexivity|].
  apply Nat.ltb_ge in Hlt. symmetry. apply slice_last_short, Hlt.
Qed.

Lemma query_failure_state gen q s e s' :
  query gen q s = (inl e, s') -> s' = s.
Proof.
  unfold query. destruct (chain s) as [c|].
  - destruct (gen _) as [e'|result]; intros H; inversion H; reflexivity.
  - intros H; inversion H; reflexivity.
Qed.

Lemma initialize_keeps_history w s :
  chatHistory (snd (initialize w s)) = chatHistory s.
Proof.
  unfold initialize.
  destruct (fetchConfluencePages _ _) as [e|docs]; [reflexivity|].
  destruct (_ =? 0); [reflexivity|].
  destruct (fromDocuments w docs); reflexivity.
Qed.

Lemma step_keeps_whole_exchanges s op :
  whole_exchanges s -> whole_exchanges (step s op).
Proof.
  intros [qas [Hh Hlen]]. destruct op as [w|gen q|]; simpl.
  - exists qas. rewrite initialize_keeps_history. auto.
  - destruct (query gen q s) as [[e|r] s'] eqn:Hq; simpl.
    + apply query_failure_state in Hq. subst s'. exists qas. auto.
    + apply query_success_history in Hq. destruct Hq as [Hq _].
      exists (slice_last 5 (qas ++ [(q, answer r)])). split.
      * rewrite Hq, Hh, <- slice_last_turns_of, turns_of_app. reflexivity.
      * apply length_slice_last.
  - exists []. split; [reflexivity|simpl; lia].
Qed.

Lemma reachable_whole_exchanges ops : whole_exchanges (run ops new_service).
Proof.
  apply run_invariant.
  - intros s op. apply step_keeps_whole_exchanges.
  - exists []. split; [reflexivity|simpl; lia].
Qed.

Lemma query_answering a q s c :
  chain s = Some c ->
  exists s', query (answering a) q s = (ret {| answer := a; sources := [] |}, s').
Proof.
  intros Hc. unfold query, answering. rewrite Hc. simpl. eexists. reflexivity.
Qed.

(** A run of successful queries from a history of whole exchanges keeps the
    last five exchanges. *)
Lemma run_asking (c : Chain) :
  forall qas prev s,
    chain s = Some c ->
    chatHistory s = turns_of prev ->
    List.length prev <= 5 ->
    chatHistory (run (asking qas) s) = turns_of (slice_last 5 (prev ++ qas)).
Proof.
  induction qas as [|[q a] qas IH]; intros prev s Hc Hh Hlen.
  - simpl. rewrite app_nil_r, slice_last_short by exact Hlen. exact Hh.
  - change (run (asking ((q, a) :: qas)) s)
      with (run (asking qas) (snd (query (answering a) q s))).
    destruct (query_answering a q s Hc) as [s' Hq]. rewrite Hq. simpl snd.
    apply query_success_history in Hq. destruct Hq as [Hs' [_ Hc']].
    simpl answer in Hs'.
    rewrite (IH (slice_last 5 (prev ++ [(q, a)])) s').
    + rewrite slice_last_app, <- app_assoc. reflexivity.
    + rewrite Hc'. exact Hc.
    + rewrite Hs', Hh, <- slice_last_turns_of, turns_of_app. reflexivity.
    + apply length_slice_last.
Qed.

Lemma count_role_turns_of (l : list (jsstring * jsstring)) :
  count_role (lit "user") (turns_of l) = List.length l
  /\ count_role (lit "assistant") (turns_of l) = List.length l.
Proof.
  unfold count_role.
  induction l as [|x l [IHu IHa]]; [split; reflexivity|].
  change (turns_of (x :: l))
    with (user_turn (fst x) :: assistant_turn (snd x) :: turns_of l).
  split; cbn [filter user_turn assistant_turn role];
    change (JsString.eqb (lit "user") (lit "user")) with true;
    change (JsString.eqb (lit "assistant") (lit "assistant")) with true;
    change (JsString.eqb (lit "assistant") (lit "user")) with false;
    change (JsString.eqb (lit "user") (lit "assistant")) with false;
    cbn [List.length]; congruence.
Qed.

(** The turns kept by a successful [query] are the end of the old history
    followed by the two new turns, and there are ten of them unless fewer
    are at hand. *)
Lemma query_success_keeps_latest gen q s r s' :
  query gen q s = (inr r, s') ->
  (exists evicted,
     chatHistory s ++ [user_turn q; assistant_turn (answer r)]
     = evicted ++ chatHistory s')
  /\ List.length (chatHistory s') = Nat.min 10 (List.length (chatHistory s) + 2).
Proof.
  intros Hq. apply query_success_history in Hq. destruct Hq as [Hh _].
  rewrite Hh. unfold slice_last. split.
  - eexists. symmetry. apply firstn_skipn.
  - rewrite length_skipn, length_app. cbn [List.length]. lia.
Qed.

(** On a full history a successful [query] drops the two oldest turns and
    nothing else. *)
Lemma query_success_on_full_history gen q s r s' t1 t2 rest :
  query gen q s = (inr r, s') ->
  chatHistory s = t1 :: t2 :: rest ->
  List.length rest = 8 ->
  chatHistory s' = rest ++ [user_turn q; assistant_turn (answer r)].
Proof.
  intros Hq Hh Hlen. apply query_success_history in Hq. destruct Hq as [Hs' _].
  rewrite Hs', Hh. unfold slice_last.
  change ((t1 :: t2 :: rest) ++ [user_turn q; assistant_turn (answer r)])
    with (t1 :: t2 :: (rest ++ [user_turn q; assistant_turn (answer r)])).
  cbn [List.length]. rewrite length_app, Hlen. reflexivity.
Qed.

(** C5. In every state the service reaches from a new instance by
    initialisations, queries (successful or not) and resets, the history has
    at most 10 turns.  A successful query keeps the most recent turns and
    evicts the oldest: the new history is the end of the old one followed by
    the new user and assistant turns, what is missing was in front, and ten
    turns are kept unless fewer are at hand; on a full history exactly the
    two oldest turns go.  Successful queries in a row from an empty history
    leave the turns of the last five exchanges, whatever their number: six
    of them leave the second to the sixth, and eleven leave the seventh to
    the eleventh, 10 turns, 5 of the user and 5 of the assistant. *)
Theorem history_holds_at_most_ten_turns :
  (forall ops, List.length (chatHistory (run ops new_service)) <= 10)
  /\ (forall gen q s r s',
        query gen q s = (inr r, s') ->
        chatHistory s'
        = slice_last 10 (chatHistory s ++ [user_turn q; assistant_turn (answer r)]))
  /\ (forall gen q s r s',
        query gen q s = (inr r, s') ->
        (exists evicted,
           chatHistory s ++ [user_turn q; assistant_turn (answer r)]
           = evicted ++ chatHistory s')
        /\ List.length (chatHistory s') = Nat.min 10 (List.length (chatHistory s) + 2)
        /\ (forall t1 t2 rest,
              chatHistory s = t1 :: t2 :: rest ->
              List.length rest = 8 ->
              chatHistory s' = rest ++ [user_turn q; assistant_turn (answer r)]))
  /\ (forall qas s c,
        chain s = Some c ->
        chatHistory s = [] ->
        chatHistory (run (asking qas) s)
        = turns_of (skipn (List.length qas - 5) qas))
  /\ (forall qas s c,
        chain s = Some c ->
        chatHistory s = [] ->
        List.length qas = 11 ->
        let h := chatHistory (run (asking qas) s) in
        h = turns_of (skipn 6 qas)
        /\ List.length h = 10
        /\ count_role (lit "user") h = 5
        /\ count_role (lit "assistant") h = 5).
Proof.
  split; [|split; [|split; [|split]]].
  - intros ops. destruct (reachable_whole_exchanges ops) as [qas [Hh Hlen]].
    rewrite Hh, length_turns_of. lia.
  - intros gen q s r s' Hq. apply (query_success_history _ _ _ Hq).
  - intros gen q s r s' Hq.
    destruct (query_success_keeps_latest _ _ _ Hq) as [Hev Hlen].
    split; [exact Hev|]. split; [exact Hlen|].
    intros t1 t2 rest Hh Hrest.
    apply (query_success_on_full_history _ _ _ Hq Hh Hrest).
  - intros qas s c Hc Hh.
    rewrite (run_asking qas [] s Hc Hh) by (simpl; lia). reflexivity.
  - intros qas s c Hc Hh Hlen h.
    assert (Hrun : h = turns_of (skipn 6 qas)).
    { unfold h. rewrite (run_asking qas [] s Hc Hh) by (simpl; lia).
      simpl app. unfold slice_last. rewrite Hlen. reflexivity. }
    assert (Hfive : List.length (skipn 6 qas) = 5)
      by (rewrite length_skipn; lia).
    rewrite Hrun. rewrite length_turns_of.
    destruct (count_role_turns_of (skipn 6 qas)) as [Hu Ha].
    rewrite Hu, Ha, Hfive. repeat split.
Qed.

Lemma history_holds_at_most_ten_turns_witness :
  chatHistory (run (asking eleven_exchanges) fresh_service)
  = turns_of [ (lit "q7", lit "a7"); (lit "q8", lit "a8"); (lit "q9", lit "a9");
               (lit "q10", lit "a10"); (lit "q11", lit "a11") ]
  /\ chatHistory (run (asking (firstn 6 eleven_exchanges)) fresh_service)
     = turns_of [ (lit "q2", lit "a2"); (lit "q3", lit "a3"); (lit "q4", lit "a4");
                  (lit "q5", lit "a5"); (lit "q6", lit "a6") ]
  /\ chatHistory (snd (query (answering (lit "a6")) (lit "q6")
                         (run (asking (firstn 5 eleven_exchanges)) fresh_service)))
     = turns_of [ (lit "q2", lit "a2"); (lit "q3", lit "a3"); (lit "q4", lit "a4");
                  (lit "q5", lit "a5") ]
       ++ [user_turn (lit "q6"); assistant_turn (lit "a6")].
Proof.
  split; [|split].
  - exact (proj1 (proj2 (proj2 (proj2 (proj2 history_holds_at_most_ten_turns)))
                    eleven_exchanges fresh_service sample_chain
                    eq_refl eq_refl eq_refl)).
  - exact (proj1 (proj2 (proj2 (proj2 history_holds_at_most_ten_turns)))
             (firstn 6 eleven_exchanges) fresh_service sample_chain
             eq_refl eq_refl).
  - exact (proj2 (proj2 (proj1 (proj2 (proj2 history_holds_at_most_ten_turns))
                           (answering (lit "a6")) (lit "q6")
                           (run (asking (firstn 5 eleven_exchanges)) fresh_service)
                           {| answer := lit "a6"; sources := [] |}
                           (snd (query (answering (lit "a6")) (lit "q6")
                                   (run (asking (firstn 5 eleven_exchanges))
                                      fresh_service)))
                           eq_refl))
             (user_turn (lit "q1")) (assistant_turn (lit "a1"))
             (turns_of [ (lit "q2", lit "a2"); (lit "q3", lit "a3");
                         (lit "q4", lit "a4"); (lit "q5", lit "a5") ])
             eq_refl eq_refl).
Defined.

Lemma alternates_turns_of (l : list (jsstring * jsstring)) :
  alternates (turns_of l)
  /\ forall a, alternates (assistant_turn a :: turns_of l).
Proof.
  induction l as [|x l [IH1 IH2]].
  - split; [exact I|intros a; exact I].
  - change (turns_of (x :: l))
      with (user_turn (fst x) :: assistant_turn (snd x) :: turns_of l).
    assert (Hua : role (user_turn (fst x)) <> role (assistant_turn (snd x)))
      by (simpl; discriminate).
    split.
    + split; [exact Hua|apply IH2].
    + intros a. split; [simpl; discriminate|]. split; [exact Hua|apply IH2].
Qed.

(** C9. In every state the service reaches from a new instance (empty
    history) by initialisations, queries and resets, no two neighbouring
    turns have the same role; more precisely the history is the turns of
    whole exchanges, a user turn then an assistant turn each.  A successful
    query appends exactly the user turn of the question and then the
    assistant turn of the answer (before the bound of ten is applied). *)
Theorem history_alternates_user_assistant :
  (forall ops, alternates (chatHistory (run ops new_service)))
  /\ (forall ops, exists qas, chatHistory (run ops new_service) = turns_of qas)
  /\ (forall gen q s r s',
        query gen q s = (inr r, s') ->
        chatHistory s'
        = slice_last 10 (chatHistory s ++ [user_turn q; assistant_turn (answer r)])
        /\ (List.length (chatHistory s) <= 8 ->
            chatHistory s' = chatHistory s ++ [user_turn q; assistant_turn (answer r)])).
Proof.
  split; [|split].
  - intros ops. destruct (reachable_whole_exchanges ops) as [qas [Hh _]].
    rewrite Hh. apply alternates_turns_of.
  - intros ops. destruct (reachable_whole_exchanges ops) as [qas [Hh _]].
    exists qas. exact Hh.
  - intros gen q s r s' Hq.
    destruct (query_success_history _ _ _ Hq) as [Hh _]. split; [exact Hh|].
    intros Hlen. rewrite Hh. apply slice_last_short.
    rewrite length_app. simpl. lia.
Qed.

Lemma history_alternates_user_assistant_witness :
  chatHistory (snd (query (answering (lit "a2")) (lit "q2") ready_service))
  = chatHistory ready_service ++ [user_turn (lit "q2"); assistant_turn (lit "a2")].
Proof.
  refine (proj2 (proj2 (proj2 history_alternates_user_assistant)
                   (answering (lit "a2")) (lit "q2") ready_service
                   {| answer := lit "a2"; sources := [] |}
                   (snd (query (answering (lit "a2")) (lit "q2") ready_service))
                   eq_refl) _).
  simpl. lia.
Defined.

(** ** Normalisation of page bodies *)





Lemma has_ws_run_cons (x : char) (s : jsstring) :
  has_ws_run (x :: s) = (is_ws x && starts_ws s) || has_ws_run s.
Proof. destruct s; simpl; [rewrite andb_false_r|]; reflexivity. Qed.




Lemma dropWhile_suffix (p : char -> bool) (s : jsstring) :
  exists pre, s = pre ++ dropWhile p s.
Proof.
  induction s as [|x s [pre IH]]; [exists []; reflexivity|].
  simpl. destruct (p x).
  - exists (x :: pre). simpl. rewrite <- IH. reflexivity.
  - exists []. reflexivity.
Qed.

(** [trim] cuts a piece out of its argument. *)
Lemma trim_infix (s : jsstring) :
  exists pre suf, s = pre ++ trim s ++ suf.
Proof.
  unfold trim.
  destruct (dropWhile_suffix is_ws s) as [pre Hpre].
  destruct (dropWhile_suffix is_ws (rev (dropWhile is_ws s))) as [suf Hsuf].
  exists pre, (rev suf).
  rewrite <- rev_app_distr, <- Hsuf, rev_involutive. exact Hpre.
Qed.



(** Facts on a global replace whose replacement is the single code unit
    [c]: every code unit of the output is [c] or a copy, and copies that are
    neighbours in the output were neighbours in the input. *)
Section ReplaceFacts.
Variable matchAt : jsstring -> option nat.
Variable c : char.

Lemma replace_from_cases (x : char) (t : jsstring) :
  replace_from matchAt [c] 0 (x :: t) = x :: replace_from matchAt [c] 0 t
  \/ exists k, matchAt (x :: t) = Some (S k)
               /\ replace_from matchAt [c] 0 (x :: t) = c :: replace_from matchAt [c] k t.
Proof.
  cbn [replace_from].
  destruct (matchAt (x :: t)) as [[|k]|]; [left; reflexivity| |left; reflexivity].
  right. exists k. split; reflexivity.
Qed.



(** Every code unit of the output is [c] or occurs in the input. *)
Lemma in_replace_from (x : char) :
  forall s k, In x (replace_from matchAt [c] k s) -> x = c \/ In x s.
Proof.
  induction s as [|y t IH]; intros k H; [contradiction|].
  destruct k as [|k].
  - destruct (replace_from_cases y t) as [Heq|[k [_ Heq]]];
      rewrite Heq in H; destruct H as [H|H].
    + right. left. exact H.
    + destruct (IH _ H) as [Hx|Hx]; [left; exact Hx|right; right; exact Hx].
    + left. symmetry. exact H.
    + destruct (IH _ H) as [Hx|Hx]; [left; exact Hx|right; right; exact Hx].
  - destruct (IH _ H) as [Hx|Hx]; [left; exact Hx|right; right; exact Hx].
Qed.

End ReplaceFacts.


Lemma match_ws_head (x : char) (t : jsstring) :
  match_ws (x :: t) = if is_ws x then Some (S (ws_prefix t)) else None.
Proof. unfold match_ws. cbn [ws_prefix]. destruct (is_ws x); reflexivity. Qed.








(** A literal pattern whose first code unit does not occur is not found. *)
Lemma replace_literal_absent (p : char) (ps rep : jsstring) :
  forall s, ~ In p s -> replace_from (match_lit (p :: ps)) rep 0 s = s.
Proof.
  induction s as [|x t IH]; intros Hp; [reflexivity|].
  cbn [replace_from]. unfold match_lit at 1. cbn [starts_with].
  destruct (p =? x)%N eqn:Hx.
  - exfalso. apply Hp. left. apply N.eqb_eq in Hx. symmetry. exact Hx.
  - simpl. rewrite IH; [reflexivity|].
    intros Hin. apply Hp. right. exact Hin.
Qed.

Lemma starts_ws_dropWhile (s : jsstring) : starts_ws (dropWhile is_ws s) = false.
Proof.
  induction s as [|x t IH]; [reflexivity|].
  simpl. destruct (is_ws x) eqn:Hx; [exact IH|]. simpl. exact Hx.
Qed.

(** [trim] leaves no white space at either end. *)
Lemma trim_ends (s : jsstring) :
  starts_ws (trim s) = false /\ starts_ws (rev (trim s)) = false.
Proof.
  unfold trim. split.
  - destruct (dropWhile_suffix is_ws (rev (dropWhile is_ws s))) as [pre Hpre].
    apply (f_equal (@rev char)) in Hpre.
    rewrite rev_involutive, rev_app_distr in Hpre.
    pose proof (starts_ws_dropWhile s) as Hs. rewrite Hpre in Hs.
    destruct (rev (dropWhile is_ws (rev (dropWhile is_ws s)))); [reflexivity|exact Hs].
  - rewrite rev_involutive. apply starts_ws_dropWhile.
Qed.









Example stripHtml_paragraph :
  stripHtml (lit "<p>Hello&nbsp;<b>world</b></p>  &amp; more ") = lit "Hello world & more".
Proof. vm_compute. reflexivity. Qed.

Example stripHtml_empty_body : stripHtml [] = [].
Proof. reflexivity. Qed.

(* ------------------------------------------------------------------ *)
(** * Further properties of the code *)

(** ** [stripHtml] *)

Lemma length_replace_from matchAt (c : char) :
  forall s k, List.length (replace_from matchAt [c] k s) <= List.length s.
Proof.
  induction s as [|x t IH]; intros k; [simpl; lia|].
  destruct k as [|k].
  - destruct (replace_from_cases matchAt c x t) as [Heq|[k [_ Heq]]];
      rewrite Heq; simpl; [specialize (IH 0)|specialize (IH k)]; lia.
  - simpl. specialize (IH k). lia.
Qed.

Lemma length_trim (s : jsstring) : List.length (trim s) <= List.length s.
Proof.
  destruct (trim_infix s) as [pre [suf Hs]].
  rewrite Hs at 2. rewrite !length_app. lia.
Qed.

Lemma in_trim (x : char) (s : jsstring) : In x (trim s) -> In x s.
Proof.
  intros H. destruct (trim_infix s) as [pre [suf Hs]].
  rewrite Hs. apply in_or_app. right. apply in_or_app. left. exact H.
Qed.

(** X1. [stripHtml] never lengthens a body, and every code unit of its
    result is a code unit of the body or one of the five it substitutes:
    space, [&], [<], [>] and the double quote. *)
Theorem stripHtml_shrinks_and_invents_nothing :
  forall html : jsstring,
    List.length (stripHtml html) <= List.length html
    /\ (forall x, In x (stripHtml html) ->
          In x html \/ In x [SPACE; AMP; LT_SIGN; GT_SIGN; QUOT]).
Proof.
  intros html. unfold stripHtml. cbv zeta. unfold replaceAll. split.
  - eapply Nat.le_trans; [apply length_trim|].
    repeat (eapply Nat.le_trans; [apply length_replace_from|]).
    apply Nat.le_refl.
  - intros x H. apply in_trim in H.
    repeat (apply in_replace_from in H;
            destruct H as [H|H]; [right; rewrite H; simpl; tauto|]).
    left. exact H.
Qed.

Lemma stripHtml_shrinks_and_invents_nothing_witness :
  In 72%N (lit "<p>Hi &amp; bye</p>")
  \/ In 72%N [SPACE; AMP; LT_SIGN; GT_SIGN; QUOT].
Proof.
  apply (proj2 (stripHtml_shrinks_and_invents_nothing (lit "<p>Hi &amp; bye</p>"))).
  vm_compute. tauto.
Defined.

Lemma strip_tags_absent (rep : jsstring) :
  forall s, ~ In LT_SIGN s -> replace_from match_tag rep 0 s = s.
Proof.
  induction s as [|x t IH]; intros Hlt; [reflexivity|].
  cbn [replace_from]. unfold match_tag at 1.
  destruct (x =? LT_SIGN)%N eqn:Hx.
  - exfalso. apply Hlt. left. apply N.eqb_eq in Hx. exact Hx.
  - rewrite IH; [reflexivity|]. intros Hin. apply Hlt. right. exact Hin.
Qed.

Lemma ws_prefix_not_ws (s : jsstring) : starts_ws s = false -> ws_prefix s = 0.
Proof. destruct s as [|x t]; simpl; [reflexivity|]. intros H. rewrite H. reflexivity. Qed.

Lemma collapse_ws_fixed :
  forall s,
    (forall c, In c s -> is_ws c = true -> c = SPACE) ->
    has_ws_run s = false ->
    replace_from match_ws [SPACE] 0 s = s.
Proof.
  induction s as [|x t IH]; intros Hsp Hrun; [reflexivity|].
  rewrite has_ws_run_cons in Hrun. apply orb_false_iff in Hrun.
  destruct Hrun as [Hx Ht].
  assert (IH' : replace_from match_ws [SPACE] 0 t = t).
  { apply IH; [|exact Ht]. intros c Hin. apply Hsp. right. exact Hin. }
  cbn [replace_from]. rewrite match_ws_head.
  destruct (is_ws x) eqn:Hws.
  - simpl in Hx. rewrite (ws_prefix_not_ws t Hx). cbn [app].
    rewrite IH'. f_equal. symmetry. apply Hsp; [left; reflexivity|exact Hws].
  - rewrite IH'. reflexivity.
Qed.

Lemma dropWhile_not_ws (s : jsstring) : starts_ws s = false -> dropWhile is_ws s = s.
Proof. destruct s as [|x t]; simpl; [reflexivity|]. intros H. rewrite H. reflexivity. Qed.

(** X2. A text with no [<] and no [&], whose white space is single spaces
    between other code units, is returned unchanged by [stripHtml]. *)
Theorem stripHtml_keeps_plain_text :
  forall t : jsstring, plain_text t -> stripHtml t = t.
Proof.
  intros t [Hlt [Hamp [Hsp [Hrun [Hhead Hlast]]]]].
  unfold stripHtml. cbv zeta. unfold replaceAll.
  rewrite (strip_tags_absent [SPACE] t Hlt).
  change (lit "&nbsp;") with (AMP :: lit "nbsp;").
  change (lit "&amp;") with (AMP :: lit "amp;").
  change (lit "&lt;") with (AMP :: lit "lt;").
  change (lit "&gt;") with (AMP :: lit "gt;").
  change (lit "&quot;") with (AMP :: lit "quot;").
  rewrite (@replace_literal_absent AMP (lit "nbsp;") [SPACE] t Hamp).
  rewrite (@replace_literal_absent AMP (lit "amp;") [AMP] t Hamp).
  rewrite (@replace_literal_absent AMP (lit "lt;") [LT_SIGN] t Hamp).
  rewrite (@replace_literal_absent AMP (lit "gt;") [GT_SIGN] t Hamp).
  rewrite (@replace_literal_absent AMP (lit "quot;") [QUOT] t Hamp).
  rewrite (collapse_ws_fixed t Hsp Hrun).
  unfold trim. rewrite (dropWhile_not_ws t Hhead), (dropWhile_not_ws (rev t) Hlast).
  apply rev_involutive.
Qed.

Lemma stripHtml_keeps_plain_text_witness :
  stripHtml (lit "Use a > b, then restart.") = lit "Use a > b, then restart.".
Proof.
  apply stripHtml_keeps_plain_text.
  unfold plain_text. vm_compute.
  repeat split; try (intros H; intuition discriminate).
  intros c H Hws.
  repeat (destruct H as [H|H]; [subst c; first [reflexivity|discriminate Hws]|]).
  contradiction.
Defined.

(** ** [fetchConfluencePages] and [initialize] *)

Lemma fetch_configured (e : Env) (response : Result (list Page)) :
  configured e = true ->
  fetchConfluencePages e response
  = match response with
    | inl err => throw err
    | inr pages => ret (map (toDocument e) pages)
    end.
Proof.
  unfold configured, fetchConfluencePages. intros H.
  apply negb_true_iff in H. rewrite H. destruct response; reflexivity.
Qed.

Lemma fetch_unconfigured (e : Env) (response : Result (list Page)) :
  configured e = false ->
  fetchConfluencePages e response
  = throw (mkError (lit "Missing Confluence configuration")).
Proof.
  unfold configured, fetchConfluencePages. intros H.
  apply negb_false_iff in H. rewrite H. reflexivity.
Qed.

(** X3. When one of the four Confluence variables is unset or empty,
    [fetchConfluencePages] throws the missing-configuration error whatever
    Confluence would have answered; [initialize] throws it and leaves the
    instance as it was, and the start-up block records its message and
    leaves the server not initialised. *)
Theorem missing_configuration_fails_startup :
  forall (w : InitWorld) (s : Service),
    configured (env w) = false ->
    fetchConfluencePages (env w) (confluence w)
    = throw (mkError (lit "Missing Confluence configuration"))
    /\ initialize w s = (throw (mkError (lit "Missing Confluence configuration")), s)
    /\ startup w new_server
       = {| ragService := new_service;
            isInitialized := false;
            initializationError := Some (lit "Missing Confluence configuration") |}.
Proof.
  intros w s H.
  assert (Hi : forall s0, initialize w s0
               = (throw (mkError (lit "Missing Confluence configuration")), s0)).
  { intros s0. unfold initialize. rewrite (fetch_unconfigured _ _ H). reflexivity. }
  split; [apply fetch_unconfigured, H|]. split; [apply Hi|].
  unfold startup. simpl ragService. rewrite Hi. reflexivity.
Qed.

Lemma missing_configuration_fails_startup_witness :
  initialize blank_world new_service
  = (throw (mkError (lit "Missing Confluence configuration")), new_service).
Proof.
  exact (proj1 (proj2 (missing_configuration_fails_startup blank_world new_service eq_refl))).
Defined.

(** X4. With a complete configuration, an error of the Confluence call is
    rethrown as it is; otherwise there is one document per page, in the
    order of the pages, carrying the page's id and title and the normalised
    body, and two documents get the same URL only when their pages have the
    same id. *)
Theorem fetch_maps_pages_to_documents :
  forall (e : Env),
    configured e = true ->
    (forall err, fetchConfluencePages e (throw err) = throw err)
    /\ (forall pages,
          exists docs,
            fetchConfluencePages e (ret pages) = ret docs
            /\ List.length docs = List.length pages
            /\ map (fun d => id (metadata d)) docs = map page_id pages
            /\ map (fun d => title (metadata d)) docs = map page_title pages
            /\ map pageContent docs
               = map (fun p => stripHtml (match page_body p with
                                          | Some b => b
                                          | None => []
                                          end)) pages)
    /\ (forall p1 p2,
          url (metadata (toDocument e p1)) = url (metadata (toDocument e p2)) ->
          page_id p1 = page_id p2).
Proof.
  intros e He. split; [|split].
  - intros err. rewrite (fetch_configured _ _ He). reflexivity.
  - intros pages. exists (map (toDocument e) pages).
    rewrite (fetch_configured _ _ He). split; [reflexivity|].
    rewrite length_map, !map_map. repeat split.
    apply map_ext. intros p. simpl. destruct (page_body p) as [[|c b]|]; reflexivity.
  - intros p1 p2 H. unfold toDocument in H. cbn [metadata url] in H.
    repeat apply app_inv_head in H. exact H.
Qed.

Lemma fetch_maps_pages_to_documents_witness :
  fetchConfluencePages sample_env (throw (mkError (lit "timeout")))
  = throw (mkError (lit "timeout")).
Proof.
  exact (proj1 (fetch_maps_pages_to_documents sample_env eq_refl)
           (mkError (lit "timeout"))).
Defined.

(** X5. Whenever [initialize] throws, the instance is exactly what it was:
    neither the vector store nor the chain nor the history has changed.
    With a complete configuration, an empty list of pages makes it throw
    the no-documents error, and a rejection of the vector store build is
    rethrown as it is. *)
Theorem initialize_failure_changes_nothing :
  forall (w : InitWorld) (s : Service),
    (forall e s', initialize w s = (inl e, s') -> s' = s)
    /\ (configured (env w) = true ->
        confluence w = ret [] ->
        initialize w s
        = (throw (mkError (lit "No documents found in Confluence space")), s))
    /\ (forall p ps e,
          configured (env w) = true ->
          confluence w = ret (p :: ps) ->
          embedding_error w = Some e ->
          initialize w s = (throw e, s)).
Proof.
  intros w s. split; [|split].
  - intros e s'. unfold initialize.
    destruct (fetchConfluencePages _ _) as [e0|docs].
    + intros H. inversion H. reflexivity.
    + destruct (_ =? 0).
      * intros H. inversion H. reflexivity.
      * destruct (fromDocuments w docs); intros H; inversion H. reflexivity.
  - intros Hc Hp. unfold initialize.
    rewrite (fetch_configured _ _ Hc), Hp. reflexivity.
  - intros p ps e Hc Hp He. unfold initialize, fromDocuments.
    rewrite (fetch_configured _ _ Hc), Hp, He. reflexivity.
Qed.

Lemma initialize_failure_changes_nothing_witness :
  initialize {| env := sample_env; confluence := ret []; embedding_error := None |}
             ready_service
  = (throw (mkError (lit "No documents found in Confluence space")), ready_service).
Proof.
  exact (proj1 (proj2 (initialize_failure_changes_nothing
                         {| env := sample_env; confluence := ret [];
                            embedding_error := None |} ready_service))
           eq_refl eq_refl).
Defined.

(** X6. [initialize] succeeds exactly when the configuration is complete,
    Confluence answers with at least one page and the vector store build
    does not reject.  It then sets the store, built from a non-empty array,
    and a chain retrieving 4 documents from that same store, keeps the
    history, and a query whose chain call answers returns that answer. *)
Theorem initialize_success_criterion :
  forall (w : InitWorld) (s : Service),
    (fst (initialize w s) = ret tt
     <-> configured (env w) = true
         /\ (exists p ps, confluence w = ret (p :: ps))
         /\ embedding_error w = None)
    /\ (forall s',
          initialize w s = (inr tt, s') ->
          exists store,
            vectorStore s' = Some store
            /\ indexed store <> []
            /\ chain s' = Some {| retriever := store; topK := 4 |}
            /\ chatHistory s' = chatHistory s
            /\ forall a q, fst (query (answering a) q s')
                           = ret {| answer := a; sources := [] |}).
Proof.
  intros w s. split.
  - unfold initialize, fromDocuments. split.
    + destruct (configured (env w)) eqn:Hc.
      * rewrite (fetch_configured _ _ Hc).
        destruct (confluence w) as [err|[|p ps]]; simpl; try discriminate.
        destruct (embedding_error w); simpl; [discriminate|].
        intros _. repeat split. exists p, ps. reflexivity.
      * rewrite (fetch_unconfigured _ _ Hc). discriminate.
    + intros [Hc [[p [ps Hp]] He]].
      rewrite (fetch_configured _ _ Hc), Hp, He. reflexivity.
  - intros s' H. unfold initialize in H.
    destruct (fetchConfluencePages _ _) as [e0|docs]; [discriminate H|].
    destruct (List.length docs =? 0) eqn:Hlen; [discriminate H|].
    unfold fromDocuments in H.
    destruct (embedding_error w); [discriminate H|].
    inversion H; subst; clear H. eexists. simpl.
    split; [reflexivity|]. split.
    { intros Hd. simpl in Hd. subst docs. discriminate Hlen. }
    repeat split.
Qed.

Lemma initialize_success_criterion_witness :
  fst (initialize two_page_world new_service) = ret tt.
Proof.
  apply (proj1 (initialize_success_criterion two_page_world new_service)).
  split; [reflexivity|]. split; [|reflexivity].
  eexists. eexists. reflexivity.
Defined.

(** X7. No call of the service unsets the vector store or the chain: once
    an instance is initialised it stays so through every later
    initialisation (failed or not), query and reset. *)
Theorem initialised_service_stays_initialised :
  forall (ops : list Op) (s : Service),
    (vectorStore s <> None -> vectorStore (run ops s) <> None)
    /\ (chain s <> None -> chain (run ops s) <> None).
Proof.
  intros ops s. split; intros H.
  - apply (run_invariant (fun s => vectorStore s <> None)); [|exact H].
    clear. intros s [w|gen q|] Hs; simpl; [| |exact Hs].
    + unfold initialize.
      destruct (fetchConfluencePages _ _) as [e|docs]; [exact Hs|].
      destruct (_ =? 0); [exact Hs|].
      destruct (fromDocuments w docs); [exact Hs|]. simpl. discriminate.
    + unfold query. destruct (chain s); [|exact Hs].
      destruct (gen _); exact Hs.
  - apply (run_invariant (fun s => chain s <> None)); [|exact H].
    clear. intros s [w|gen q|] Hs; simpl; [| |exact Hs].
    + unfold initialize.
      destruct (fetchConfluencePages _ _) as [e|docs]; [exact Hs|].
      destruct (_ =? 0); [exact Hs|].
      destruct (fromDocuments w docs); [exact Hs|]. simpl. discriminate.
    + unfold query. destruct (chain s) eqn:Hc; [|exfalso; apply Hs; reflexivity].
      destruct (gen _); simpl; try rewrite Hc; discriminate.
Qed.

Lemma initialised_service_stays_initialised_witness :
  chain (run [OpClear; OpInitialize blank_world; OpQuery (failing (lit "x")) (lit "q")]
             ready_service) <> None.
Proof.
  apply (proj2 (initialised_service_stays_initialised
                  [OpClear; OpInitialize blank_world; OpQuery (failing (lit "x")) (lit "q")]
                  ready_service)).
  simpl. discriminate.
Defined.

(** ** [query] *)

Lemma length_excerpt (doc : Document) :
  List.length (Source.excerpt (toSource doc)) <= 203.
Proof.
  cbn [toSource Source.excerpt]. unfold substring0.
  rewrite length_app, length_firstn.
  change (List.length (lit "...")) with 3. lia.
Qed.

(** X8. A successful [query] returns the text of the chain call as answer
    and one source per document the call reports, in the same order, with
    the title and URL of the document's metadata and an excerpt of at most
    203 code units; it returns no source when the call reports no
    documents. *)
Theorem query_sources_follow_documents :
  forall (gen : Generation) (q : jsstring) (s s' : Service) (r : QueryResult),
    query gen q s = (inr r, s') ->
    exists result,
      gen {| question := q; chat_history := formatHistory (chatHistory s) |} = inr result
      /\ answer r = text result
      /\ (sourceDocuments result = None -> sources r = [])
      /\ (forall docs,
            sourceDocuments result = Some docs ->
            List.length (sources r) = List.length docs
            /\ map Source.title (sources r) = map (fun d => title (metadata d)) docs
            /\ map Source.url (sources r) = map (fun d => url (metadata d)) docs)
      /\ Forall (fun src => List.length (Source.excerpt src) <= 203) (sources r).
Proof.
  intros gen q s s' r H. unfold query in H.
  destruct (chain s); [|discriminate H].
  destruct (gen _) as [e|result] eqn:Hg; [discriminate H|].
  inversion H; subst; clear H. exists result. simpl.
  split; [reflexivity|]. split; [reflexivity|]. split; [|split].
  - intros Hd. rewrite Hd. reflexivity.
  - intros docs Hd. rewrite Hd, length_map, !map_map. repeat split.
  - destruct (sourceDocuments result) as [docs|]; [|constructor].
    apply Forall_forall. intros src Hin. apply in_map_iff in Hin.
    destruct Hin as [doc [Hsrc _]]. subst src. apply length_excerpt.
Qed.

Lemma query_sources_follow_documents_witness :
  exists result,
    citing [short_doc; short_doc] (lit "a")
      {| question := lit "q"; chat_history := formatHistory (chatHistory ready_service) |}
    = inr result
    /\ lit "a" = text result
    /\ (sourceDocuments result = None -> map toSource [short_doc; short_doc] = [])
    /\ (forall docs,
          sourceDocuments result = Some docs ->
          2 = List.length docs
          /\ [lit "FAQ"; lit "FAQ"] = map (fun d => title (metadata d)) docs
          /\ [lit "https://wiki/spaces/DOC/pages/42"; lit "https://wiki/spaces/DOC/pages/42"]
             = map (fun d => url (metadata d)) docs)
    /\ Forall (fun src => List.length (Source.excerpt src) <= 203)
         (map toSource [short_doc; short_doc]).
Proof.
  exact (query_sources_follow_documents
           (citing [short_doc; short_doc] (lit "a")) (lit "q") ready_service eq_refl).
Defined.

Lemma parity_step (idx : nat) :
  idx mod 2 = 0 -> S idx mod 2 = 1 /\ S (S idx) mod 2 = 0.
Proof.
  intros H.
  pose proof (Nat.div_mod_eq idx 2) as H0.
  pose proof (Nat.div_mod_eq (S idx) 2) as H1.
  pose proof (Nat.div_mod_eq (S (S idx)) 2) as H2.
  pose proof (Nat.mod_upper_bound (S idx) 2) as B1.
  pose proof (Nat.mod_upper_bound (S (S idx)) 2) as B2.
  lia.
Qed.

Lemma format_turns_from (qas : list (jsstring * jsstring)) :
  forall idx,
    idx mod 2 = 0 ->
    filter (fun pair => negb (JsString.eqb (fst pair) []))
      (mapi_from (fun msg idx =>
                    if idx mod 2 =? 0 then (content msg, [])
                    else ([], content msg)) idx (turns_of qas))
    = map (fun qa => (fst qa, []))
        (filter (fun qa => negb (JsString.eqb (fst qa) [])) qas).
Proof.
  induction qas as [|[q a] qas IH]; intros idx Hidx; [reflexivity|].
  change (turns_of ((q, a) :: qas))
    with (user_turn q :: assistant_turn a :: turns_of qas).
  destruct (parity_step idx Hidx) as [H1 H2].
  cbn [mapi_from]. rewrite Hidx, H1.
  cbn [Nat.eqb filter fst user_turn assistant_turn content].
  change (negb (JsString.eqb [] [])) with false. cbv iota.
  rewrite (IH _ H2).
  destruct (negb (JsString.eqb q [])); reflexivity.
Qed.

(** X9. On a history made of whole exchanges, as every history the service
    reaches is, the chain receives one pair per exchange whose question is
    not empty, in the order of the exchanges: the question, with the empty
    string beside it.  In every state reached from a new instance it
    therefore receives at most five pairs. *)
Theorem formatHistory_keeps_questions_in_order :
  (forall qas : list (jsstring * jsstring),
     formatHistory (turns_of qas)
     = map (fun qa => (fst qa, []))
         (filter (fun qa => negb (JsString.eqb (fst qa) [])) qas))
  /\ (forall ops,
        List.length (formatHistory (chatHistory (run ops new_service))) <= 5).
Proof.
  assert (H : forall qas : list (jsstring * jsstring),
             formatHistory (turns_of qas)
             = map (fun qa => (fst qa, []))
                 (filter (fun qa => negb (JsString.eqb (fst qa) [])) qas)).
  { intros qas. unfold formatHistory, mapi. apply format_turns_from. reflexivity. }
  split; [exact H|].
  intros ops. destruct (reachable_whole_exchanges ops) as [qas [Hh Hlen]].
  rewrite Hh, H, length_map.
  eapply Nat.le_trans; [apply filter_length_le|exact Hlen].
Qed.

(** X10. After a reset, the next query of an initialised service hands the
    chain an empty history, and when the chain call answers, the history
    holds exactly that one exchange. *)
Theorem query_after_clear_starts_over :
  forall (gen : Generation) (q : jsstring) (s : Service) (c : Chain),
    chain s = Some c ->
    query gen q (clearHistory s)
    = match gen {| question := q; chat_history := [] |} with
      | inl e => (throw e, clearHistory s)
      | inr result =>
          (ret {| answer := text result;
                  sources := match sourceDocuments result with
                             | Some docs => map toSource docs
                             | None => []
                             end |},
           {| vectorStore := vectorStore s;
              chain := chain s;
              chatHistory := [user_turn q; assistant_turn (text result)] |})
      end.
Proof.
  intros gen q s c Hc. unfold query, clearHistory. simpl. rewrite Hc.
  change (formatHistory []) with (@nil (jsstring * jsstring)).
  destruct (gen _); reflexivity.
Qed.

Lemma query_after_clear_starts_over_witness :
  query (answering (lit "a2")) (lit "q2") (clearHistory ready_service)
  = (ret {| answer := lit "a2"; sources := [] |},
     {| vectorStore := vectorStore ready_service;
        chain := chain ready_service;
        chatHistory := [user_turn (lit "q2"); assistant_turn (lit "a2")] |}).
Proof.
  exact (query_after_clear_starts_over (answering (lit "a2")) (lit "q2")
           ready_service (c := sample_chain) eq_refl).
Defined.

(** ** POST /api/chat *)

Lemma chat_guard (msg : JSValue) :
  negb (truthy msg) || negb (JsString.eqb (typeof msg) (lit "string"))
  = negb (valid_message msg).
Proof.
  destruct msg as [| |b|x|s|items|fields]; try reflexivity.
  - destruct b; reflexivity.
  - destruct x; reflexivity.
  - destruct s; reflexivity.
Qed.

Ltac settle_chat :=
  let H := fresh "H" in
  simpl; repeat split;
  try reflexivity; try lia;
  try (intros H; exfalso; apply H; reflexivity).

(** What POST /api/chat can answer and what it can touch. *)
Lemma post_chat_frame :
  forall (gen : Generation) (reqBody : JSValue) (srv : Server),
    let h := post_chat gen reqBody srv in
    In (status (response h)) [200; 400; 500; 503]
    /\ List.length (queries h) <= 1
    /\ isInitialized (server h) = isInitialized srv
    /\ initializationError (server h) = initializationError srv
    /\ vectorStore (ragService (server h)) = vectorStore (ragService srv)
    /\ chain (ragService (server h)) = chain (ragService srv)
    /\ (status (response h) <> 200 -> server h = srv).
Proof.
  intros gen reqBody [s ini err]. unfold post_chat.
  cbn [isInitialized ragService initializationError].
  destruct ini; cbn [negb]; cbv iota; [|settle_chat].
  destruct (destructure_message reqBody) as [e|msg]; [settle_chat|].
  rewrite chat_guard.
  destruct (valid_message msg); cbn [negb]; cbv iota; [|settle_chat].
  destruct (query gen (string_of msg) s) as [[e|r] s'] eqn:Hq.
  - apply query_failure_state in Hq. subst s'. settle_chat.
  - apply query_success_history in Hq. destruct Hq as [_ [Hv Hc]].
    settle_chat; assumption.
Qed.

(** X11. POST /api/chat answers 200, 400, 500 or 503 and nothing else; it
    calls [query] at most once; it never changes the readiness flag, the
    recorded initialisation error, the vector store or the chain; and
    unless it answers 200 the whole server state is what it was. *)
Theorem post_chat_effects :
  forall (gen : Generation) (reqBody : JSValue) (srv : Server),
    let h := post_chat gen reqBody srv in
    In (status (response h)) [200; 400; 500; 503]
    /\ List.length (queries h) <= 1
    /\ isInitialized (server h) = isInitialized srv
    /\ initializationError (server h) = initializationError srv
    /\ vectorStore (ragService (server h)) = vectorStore (ragService srv)
    /\ chain (ragService (server h)) = chain (ragService srv)
    /\ (status (response h) <> 200 -> server h = srv).
Proof. exact post_chat_frame. Qed.

Lemma post_chat_effects_witness :
  server (post_chat (failing (lit "down"))
            (JObject [(lit "message", JString (lit "hello"))]) ready_server)
  = ready_server.
Proof.
  apply (post_chat_effects (failing (lit "down"))
           (JObject [(lit "message", JString (lit "hello"))]) ready_server).
  vm_compute. intros H. discriminate H.
Defined.

(** X12. An initialised server answers 400 to an object body exactly when
    its [message] is not a non-empty string: missing, [null], a boolean, a
    number such as 123, an array, an object or the empty string.  It then
    answers the message-required error, calls [query] not at all and
    changes nothing. *)
Theorem chat_rejects_exactly_invalid_messages :
  forall (gen : Generation) (fields : list (jsstring * JSValue)) (srv : Server),
    isInitialized srv = true ->
    let h := post_chat gen (JObject fields) srv in
    (status (response h) = 400 <-> valid_message (lookup (lit "message") fields) = false)
    /\ (valid_message (lookup (lit "message") fields) = false ->
        h = {| response := status_json 400
                             (JObject [(lit "error", JString (lit "Message is required"))]);
               server := srv;
               queries := [] |}).
Proof.
  intros gen fields srv Hinit. unfold post_chat. rewrite Hinit. simpl.
  rewrite chat_guard.
  destruct (valid_message (lookup (lit "message") fields)); simpl.
  - split; [|discriminate].
    destruct (query gen _ (ragService srv)) as [[e|r] s']; simpl;
      split; discriminate.
  - split; [split; reflexivity|reflexivity].
Qed.

Lemma chat_rejects_exactly_invalid_messages_witness :
  post_chat (answering (lit "a"))
    (JObject [(lit "message", JNumber (S754_finite false 123%positive Z0))]) ready_server
  = {| response := status_json 400
                     (JObject [(lit "error", JString (lit "Message is required"))]);
       server := ready_server;
       queries := [] |}.
Proof.
  apply (chat_rejects_exactly_invalid_messages (answering (lit "a"))
           [(lit "message", JNumber (S754_finite false 123%positive Z0))] ready_server eq_refl).
  reflexivity.
Defined.

(** X13. An initialised server whose service has its chain hands a
    non-empty string message to [query] unchanged.  When the chain call
    answers, the response is 200 with the answer and the sources, and the
    history gains the exchange; when it throws, the response is 500 with
    the message of the error, or 'Internal server error' when that message
    is empty, and the server state is what it was. *)
Theorem chat_answers_valid_message :
  forall (gen : Generation) (fields : list (jsstring * JSValue)) (srv : Server)
         (c : Chain) (m : jsstring),
    isInitialized srv = true ->
    chain (ragService srv) = Some c ->
    lookup (lit "message") fields = JString m ->
    m <> [] ->
    let h := post_chat gen (JObject fields) srv in
    queries h = [m]
    /\ (forall result,
          gen {| question := m;
                 chat_history := formatHistory (chatHistory (ragService srv)) |}
          = inr result ->
          response h
          = json (JObject
                    [(lit "answer", JString (text result));
                     (lit "sources",
                      JArray (map source_json
                                (match sourceDocuments result with
                                 | Some docs => map toSource docs
                                 | None => []
                                 end)))])
          /\ chatHistory (ragService (server h))
             = slice_last 10 (chatHistory (ragService srv)
                              ++ [user_turn m; assistant_turn (text result)]))
    /\ (forall e,
          gen {| question := m;
                 chat_history := formatHistory (chatHistory (ragService srv)) |}
          = inl e ->
          status (response h) = 500
          /\ body (response h)
             = JObject [(lit "error",
                         JString (if JsString.eqb (message e) []
                                  then lit "Internal server error"
                                  else message e))]
          /\ server h = srv).
Proof.
  intros gen fields [s ini err] c m Hinit Hc Hm Hne h.
  simpl in Hinit, Hc. subst ini. unfold h, post_chat.
  simpl. rewrite Hm, chat_guard.
  destruct m as [|x m]; [contradiction|]. simpl.
  destruct (query gen (x :: m) s) as [[e|r] s'] eqn:Hq; simpl.
  - split; [reflexivity|].
    pose proof Hq as Hq'. unfold query in Hq'. rewrite Hc in Hq'.
    split.
    + intros result Hg. rewrite Hg in Hq'. discriminate Hq'.
    + intros e0 Hg. rewrite Hg in Hq'. inversion Hq'; subst.
      repeat split.
      unfold error_body. destruct (message e); reflexivity.
  - split; [reflexivity|].
    pose proof Hq as Hq'. unfold query in Hq'. rewrite Hc in Hq'.
    split.
    + intros result Hg. rewrite Hg in Hq'. inversion Hq'; subst. simpl.
      split; [reflexivity|].
      apply query_success_history in Hq. destruct Hq as [Hq _]. exact Hq.
    + intros e0 Hg. rewrite Hg in Hq'. discriminate Hq'.
Qed.

Lemma chat_answers_valid_message_witness :
  queries (post_chat (failing [])
             (JObject [(lit "message", JString (lit "hello"))]) ready_server)
  = [lit "hello"].
Proof.
  refine (proj1 (chat_answers_valid_message (failing [])
                   [(lit "message", JString (lit "hello"))] ready_server
                   (c := sample_chain) (m := lit "hello")
                   eq_refl eq_refl eq_refl _)).
  vm_compute. intros H. discriminate H.
Defined.

(** ** The server over its life *)

Lemma serve_frame (srv : Server) (r : Request) :
  isInitialized (serve srv r) = isInitialized srv
  /\ initializationError (serve srv r) = initializationError srv
  /\ chain (ragService (serve srv r)) = chain (ragService srv).
Proof.
  destruct r as [|gen reqBody|]; unfold serve; simpl.
  - repeat split.
  - destruct (post_chat_frame gen reqBody srv) as [_ [_ [H1 [H2 [_ [H3 _]]]]]].
    repeat split; assumption.
  - repeat split.
Qed.

Lemma serve_all_frame (rs : list Request) :
  forall srv,
    isInitialized (serve_all rs srv) = isInitialized srv
    /\ initializationError (serve_all rs srv) = initializationError srv
    /\ chain (ragService (serve_all rs srv)) = chain (ragService srv).
Proof.
  unfold serve_all. induction rs as [|r rs IH]; intros srv; simpl; [repeat split|].
  destruct (IH (serve srv r)) as [H1 [H2 H3]].
  destruct (serve_frame srv r) as [F1 [F2 F3]].
  rewrite H1, H2, H3. repeat split; assumption.
Qed.

(** A server that is not initialised and has no history is left as it is by
    every request. *)
Lemma serve_idle (srv : Server) (r : Request) :
  isInitialized srv = false ->
  chatHistory (ragService srv) = [] ->
  serve srv r = srv.
Proof.
  destruct srv as [[vs ch hist] ini err]. simpl. intros Hi Hh. subst ini hist.
  destruct r; reflexivity.
Qed.

Lemma serve_all_idle (rs : list Request) (srv : Server) :
  isInitialized srv = false ->
  chatHistory (ragService srv) = [] ->
  serve_all rs srv = srv.
Proof.
  intros Hi Hh. unfold serve_all.
  induction rs as [|r rs IH]; simpl; [reflexivity|].
  rewrite (serve_idle srv r Hi Hh). exact IH.
Qed.

Lemma initialize_failure_state w s e s' :
  initialize w s = (inl e, s') -> s' = s.
Proof.
  unfold initialize.
  destruct (fetchConfluencePages _ _) as [e0|docs].
  - intros H. inversion H. reflexivity.
  - destruct (_ =? 0).
    + intros H. inversion H. reflexivity.
    + destruct (fromDocuments w docs); intros H; inversion H. reflexivity.
Qed.

Lemma initialize_success_chain w s s' :
  initialize w s = (inr tt, s') -> chain s' <> None.
Proof.
  unfold initialize.
  destruct (fetchConfluencePages _ _) as [e0|docs]; [discriminate|].
  destruct (_ =? 0); [discriminate|].
  destruct (fromDocuments w docs); [discriminate|].
  intros H. inversion H. simpl. discriminate.
Qed.

(** X14. When [initialize] fails at start-up, the server is for ever the
    new server with the message of the error recorded, whatever requests
    came before or come after: /api/health reports 'initializing' with that
    message, and every POST /api/chat is answered 503. *)
Theorem failed_startup_is_permanent :
  forall (before after : list Request) (w : InitWorld) (e : JsError),
    fst (initialize w new_service) = throw e ->
    lifetime before w after
    = {| ragService := new_service;
         isInitialized := false;
         initializationError := Some (message e) |}
    /\ get_health (lifetime before w after)
       = json (JObject [(lit "status", JString (lit "initializing"));
                        (lit "error", JString (message e))])
    /\ (forall gen reqBody,
          status (response (post_chat gen reqBody (lifetime before w after))) = 503).
Proof.
  intros before after w e He.
  assert (Hl : lifetime before w after
               = {| ragService := new_service;
                    isInitialized := false;
                    initializationError := Some (message e) |}).
  { unfold lifetime.
    rewrite (serve_all_idle before new_server eq_refl eq_refl).
    unfold startup. simpl ragService.
    destruct (initialize w new_service) as [[e0|[]] s'] eqn:Hi; simpl in He;
      [|discriminate He].
    inversion He; subst e0. apply initialize_failure_state in Hi. subst s'.
    apply serve_all_idle; reflexivity. }
  rewrite Hl. repeat split.
Qed.

Lemma failed_startup_is_permanent_witness :
  lifetime [PostClear] blank_world [GetHealth; PostChat (answering (lit "a")) JNull]
  = {| ragService := new_service;
       isInitialized := false;
       initializationError := Some (lit "Missing Confluence configuration") |}.
Proof.
  exact (proj1 (failed_startup_is_permanent
                  [PostClear] [GetHealth; PostChat (answering (lit "a")) JNull]
                  blank_world (e := mkError (lit "Missing Confluence configuration"))
                  eq_refl)).
Defined.

(** X15. When [initialize] succeeds at start-up, the server is initialised
    from then on with no error recorded: /api/health reports 'ready' with a
    null error, no POST /api/chat is answered 503, and the chain is set, so
    that a non-empty string message whose chain call answers is answered
    200; the not-initialised error of [query] cannot occur. *)
Theorem successful_startup_is_permanent :
  forall (before after : list Request) (w : InitWorld),
    fst (initialize w new_service) = ret tt ->
    let srv := lifetime before w after in
    isInitialized srv = true
    /\ initializationError srv = None
    /\ get_health srv
       = json (JObject [(lit "status", JString (lit "ready")); (lit "error", JNull)])
    /\ chain (ragService srv) <> None
    /\ (forall gen reqBody, status (response (post_chat gen reqBody srv)) <> 503)
    /\ (forall gen fields x m result,
          lookup (lit "message") fields = JString (x :: m) ->
          gen {| question := x :: m;
                 chat_history := formatHistory (chatHistory (ragService srv)) |}
          = inr result ->
          status (response (post_chat gen (JObject fields) srv)) = 200).
Proof.
  intros before after w Hw srv.
  assert (Hs : isInitialized srv = true /\ initializationError srv = None
               /\ chain (ragService srv) <> None).
  { unfold srv, lifetime.
    destruct (serve_all_frame after (startup w (serve_all before new_server)))
      as [H1 [H2 H3]].
    rewrite H1, H2, H3.
    rewrite (serve_all_idle before new_server eq_refl eq_refl).
    unfold startup. simpl ragService.
    destruct (initialize w new_service) as [[e0|[]] s'] eqn:Hi; simpl in Hw;
      [discriminate Hw|].
    simpl. repeat split. apply (initialize_success_chain _ _ Hi). }
  destruct Hs as [Hi [He Hc]].
  split; [exact Hi|]. split; [exact He|]. split; [|split; [exact Hc|split]].
  - unfold get_health. rewrite Hi, He. reflexivity.
  - intros gen reqBody. unfold post_chat. rewrite Hi. simpl.
    destruct (destructure_message reqBody); simpl; [discriminate|].
    destruct (_ || _); simpl; [discriminate|].
    destruct (query gen _ _) as [[e|r] s']; simpl; discriminate.
  - intros gen fields x m result Hm Hg. unfold post_chat. rewrite Hi. simpl.
    rewrite Hm. simpl. unfold query.
    destruct (chain (ragService srv)); [|contradiction].
    rewrite Hg. reflexivity.
Qed.

Lemma successful_startup_is_permanent_witness :
  isInitialized (lifetime [GetHealth] two_page_world
                   [PostChat (answering (lit "a"))
                      (JObject [(lit "message", JString (lit "hi"))]); PostClear])
  = true.
Proof.
  exact (proj1 (successful_startup_is_permanent
                  [GetHealth]
                  [PostChat (answering (lit "a"))
                     (JObject [(lit "message", JString (lit "hi"))]); PostClear]
                  two_page_world eq_refl)).
Defined.

Lemma serve_is_run (srv : Server) (r : Request) :
  ragService (serve srv r) = run (ops_of srv r) (ragService srv).
Proof.
  destruct r as [|gen reqBody|]; unfold serve; simpl; [reflexivity| |reflexivity].
  unfold post_chat.
  destruct (isInitialized srv); [|reflexivity]. simpl.
  destruct (destructure_message reqBody) as [e|msg]; [reflexivity|].
  destruct (_ || _); [reflexivity|].
  destruct (query gen (string_of msg) (ragService srv)) as [[e|res] s'] eqn:Hq;
    simpl; rewrite Hq; reflexivity.
Qed.

Lemma run_app (ops1 ops2 : list Op) (s : Service) :
  run (ops1 ++ ops2) s = run ops2 (run ops1 s).
Proof. unfold run. apply fold_left_app. Qed.

Lemma serve_all_is_run (rs : list Request) :
  forall srv, exists ops, ragService (serve_all rs srv) = run ops (ragService srv).
Proof.
  unfold serve_all. induction rs as [|r rs IH]; intros srv; simpl.
  - exists []. reflexivity.
  - destruct (IH (serve srv r)) as [ops Hops].
    exists (ops_of srv r ++ ops).
    rewrite Hops, serve_is_run, run_app. reflexivity.
Qed.

Lemma startup_is_run (w : InitWorld) (srv : Server) :
  ragService (startup w srv) = run [OpInitialize w] (ragService srv).
Proof.
  unfold startup. simpl.
  destruct (initialize w (ragService srv)) as [[e|u] s']; reflexivity.
Qed.

(** X16. Whatever requests the server answers over its life, the service
    behind it is in a state that calls of the service reach from a new
    instance; its history therefore never holds more than 10 turns and its
    turns alternate between user and assistant. *)
Theorem server_history_stays_bounded_and_alternating :
  forall (before after : list Request) (w : InitWorld),
    let s := ragService (lifetime before w after) in
    (exists ops, s = run ops new_service)
    /\ List.length (chatHistory s) <= 10
    /\ alternates (chatHistory s).
Proof.
  intros before after w s.
  assert (Hrun : exists ops, s = run ops new_service).
  { unfold s, lifetime.
    destruct (serve_all_is_run after (startup w (serve_all before new_server)))
      as [ops2 H2].
    destruct (serve_all_is_run before new_server) as [ops1 H1].
    exists (ops1 ++ [OpInitialize w] ++ ops2).
    rewrite H2, startup_is_run, H1, !run_app. reflexivity. }
  split; [exact Hrun|].
  destruct Hrun as [ops Hops]. rewrite Hops.
  destruct (reachable_whole_exchanges ops) as [qas [Hh Hlen]].
  rewrite Hh. split.
  - rewrite length_turns_of. lia.
  - apply alternates_turns_of.
Qed.

(** ** The page: [sendMessage] and [checkHealth] *)

Lemma dropWhile_all_ws (s : jsstring) :
  (forall c, In c s -> is_ws c = true) -> dropWhile is_ws s = [].
Proof.
  induction s as [|x t IH]; intros H; [reflexivity|].
  simpl. rewrite (H x (or_introl eq_refl)).
  apply IH. intros c Hc. apply H. right. exact Hc.
Qed.

Lemma sendMessage_request_cases (ui : Page_ui) :
  (trim (inputValue ui) = [] \/ isReady ui = false) /\ sendMessage_request ui = None
  \/ (exists x m, trim (inputValue ui) = x :: m)
     /\ isReady ui = true
     /\ sendMessage_request ui
        = Some (JObject [(lit "message", JString (trim (inputValue ui)))]).
Proof.
  unfold sendMessage_request. cbv zeta.
  destruct (trim (inputValue ui)) as [|x m] eqn:Ht; simpl.
  - left. split; [left|]; reflexivity.
  - destruct (isReady ui); simpl.
    + right. split; [exists x, m; reflexivity|]. split; reflexivity.
    + left. split; [right|]; reflexivity.
Qed.

(** X17. [sendMessage] posts nothing when the page is not ready or when the
    typed text is empty once trimmed, in particular when it is all white
    space.  What it posts is the object whose [message] is the trimmed
    text, which is not empty and has no white space at either end. *)
Theorem sendMessage_posts_trimmed_text_when_ready :
  forall ui : Page_ui,
    (sendMessage_request ui = None
     <-> trim (inputValue ui) = [] \/ isReady ui = false)
    /\ (forall reqBody,
          sendMessage_request ui = Some reqBody ->
          reqBody = JObject [(lit "message", JString (trim (inputValue ui)))]
          /\ trim (inputValue ui) <> []
          /\ starts_ws (trim (inputValue ui)) = false
          /\ starts_ws (rev (trim (inputValue ui))) = false
          /\ isReady ui = true)
    /\ ((forall c, In c (inputValue ui) -> is_ws c = true) ->
        sendMessage_request ui = None).
Proof.
  intros ui.
  destruct (sendMessage_request_cases ui) as [[Hc Hn]|[[x [m Ht]] [Hr Hs]]].
  - split; [|split].
    + split; [intros _; exact Hc|intros _; exact Hn].
    + intros reqBody H. rewrite Hn in H. discriminate H.
    + intros _. exact Hn.
  - split; [|split].
    + split.
      * intros H. rewrite Hs in H. discriminate H.
      * intros [H|H]; [rewrite Ht in H; discriminate H|rewrite Hr in H; discriminate H].
    + intros reqBody H. rewrite Hs in H. inversion H.
      destruct (trim_ends (inputValue ui)) as [Hhead Hlast].
      repeat split; try assumption. rewrite Ht. discriminate.
    + intros Hall. exfalso. unfold trim in Ht.
      rewrite (dropWhile_all_ws _ Hall) in Ht. discriminate Ht.
Qed.

Lemma sendMessage_posts_trimmed_text_when_ready_witness :
  sendMessage_request
    {| isReady := true; statusText := lit "Ready"; statusClasses := [lit "ready"];
       sendDisabled := false; inputValue := [SPACE; 9%N; 160%N] |}
  = None.
Proof.
  apply (proj2 (proj2 (sendMessage_posts_trimmed_text_when_ready
                         {| isReady := true; statusText := lit "Ready";
                            statusClasses := [lit "ready"];
                            sendDisabled := false;
                            inputValue := [SPACE; 9%N; 160%N] |}))).
  simpl. intros c H.
  repeat (destruct H as [H|H]; [subst c; reflexivity|]). contradiction.
Defined.

Lemma sent_message_is_accepted gen (ui : Page_ui) (srv : Server) reqBody :
  sendMessage_request ui = Some reqBody ->
  isInitialized srv = true ->
  status (response (post_chat gen reqBody srv)) <> 400
  /\ status (response (post_chat gen reqBody srv)) <> 503
  /\ queries (post_chat gen reqBody srv) = [trim (inputValue ui)].
Proof.
  intros Hs Hi.
  destruct (sendMessage_request_cases ui) as [[_ Hn]|[[x [m Ht]] [_ Hs']]];
    [rewrite Hn in Hs; discriminate Hs|].
  rewrite Hs' in Hs. inversion Hs; subst reqBody; clear Hs.
  unfold post_chat. rewrite Hi. simpl. rewrite Ht. simpl.
  destruct (query gen (x :: m) (ragService srv)) as [[e|r] s']; simpl;
    repeat split; discriminate.
Qed.

(** X18. Whatever the user typed, a body that [sendMessage] posts is never
    answered 400 by an initialised server: it passes the validation of the
    chat handler and its trimmed text is the question handed to [query]. *)
Theorem posted_message_passes_validation :
  forall (gen : Generation) (ui : Page_ui) (srv : Server) (reqBody : JSValue),
    sendMessage_request ui = Some reqBody ->
    isInitialized srv = true ->
    status (response (post_chat gen reqBody srv)) <> 400
    /\ queries (post_chat gen reqBody srv) = [trim (inputValue ui)].
Proof.
  intros gen ui srv reqBody Hs Hi.
  destruct (sent_message_is_accepted gen ui srv Hs Hi) as [H1 [_ H2]].
  split; assumption.
Qed.

Lemma posted_message_passes_validation_witness :
  queries (post_chat (answering (lit "a"))
             (JObject [(lit "message", JString (lit "hi"))]) ready_server)
  = [lit "hi"].
Proof.
  exact (proj2 (posted_message_passes_validation (answering (lit "a"))
                  {| isReady := true; statusText := lit "Ready";
                     statusClasses := [lit "ready"]; sendDisabled := false;
                     inputValue := lit "  hi " |}
                  ready_server eq_refl eq_refl)).
Defined.

Lemma jsstring_eqb_refl (a : jsstring) : JsString.eqb a a = true.
Proof.
  induction a as [|x a IH]; [reflexivity|].
  simpl. rewrite N.eqb_refl. exact IH.
Qed.

Lemma jsstring_eqb_eq (a b : jsstring) : JsString.eqb a b = true -> a = b.
Proof.
  revert b. induction a as [|x a IH]; intros [|y b] H; try discriminate H.
  - reflexivity.
  - simpl in H. apply andb_true_iff in H. destruct H as [Hx Ha].
    apply N.eqb_eq in Hx. subst y. f_equal. apply IH, Ha.
Qed.

Lemma in_classList_add (c : jsstring) (l : list jsstring) :
  In c (classList_add c l).
Proof.
  unfold classList_add. destruct (existsb (JsString.eqb c) l) eqn:He.
  - apply existsb_exists in He. destruct He as [x [Hin Hx]].
    apply jsstring_eqb_eq in Hx. subst x. exact Hin.
  - apply in_or_app. right. left. reflexivity.
Qed.

Lemma not_in_classList_remove (c : jsstring) (l : list jsstring) :
  ~ In c (classList_remove c l).
Proof.
  unfold classList_remove. intros H. apply filter_In in H.
  destruct H as [_ H]. rewrite jsstring_eqb_refl in H. discriminate H.
Qed.

(** What [checkHealth] makes of the answer of GET /api/health. *)
Lemma checkHealth_of_health ToString (ui : Page_ui) (srv : Server) :
  checkHealth ToString (Some (body (get_health srv))) ui
  = if isInitialized srv then
      ({| isReady := true;
          statusText := lit "Ready";
          statusClasses :=
            classList_remove (lit "error")
              (classList_add (lit "ready") (statusClasses ui));
          sendDisabled := false;
          inputValue := inputValue ui |},
       None)
    else
      match initializationError srv with
      | Some (c :: m) =>
          ({| isReady := isReady ui;
              statusText := lit "Error: " ++ ToString (JString (c :: m));
              statusClasses :=
                classList_remove (lit "ready")
                  (classList_add (lit "error") (statusClasses ui));
              sendDisabled := sendDisabled ui;
              inputValue := inputValue ui |},
           None)
      | _ =>
          ({| isReady := isReady ui;
              statusText := lit "Initializing...";
              statusClasses := statusClasses ui;
              sendDisabled := sendDisabled ui;
              inputValue := inputValue ui |},
           Some 2000)
      end.
Proof.
  unfold checkHealth, get_health, json. cbn [body property].
  destruct (isInitialized srv); [reflexivity|].
  destruct (initializationError srv) as [[|c m]|]; reflexivity.
Qed.

(** X19. Fed the answer of GET /api/health, [checkHealth] makes the page
    ready exactly when the server is initialised: it then shows 'Ready',
    enables the send button and stops polling.  Otherwise the page stays as
    ready as it was; with a non-empty initialisation error it shows the
    error and stops polling, and with none, or an empty one, it shows
    'Initializing...' and polls again after 2000 ms. *)
Theorem checkHealth_follows_server :
  forall (ToString : JSValue -> jsstring) (ui : Page_ui) (srv : Server),
    let r := checkHealth ToString (Some (body (get_health srv))) ui in
    (isInitialized srv = true ->
     isReady (fst r) = true /\ statusText (fst r) = lit "Ready"
     /\ sendDisabled (fst r) = false /\ snd r = None
     /\ In (lit "ready") (statusClasses (fst r))
     /\ ~ In (lit "error") (statusClasses (fst r)))
    /\ (isInitialized srv = false ->
        isReady (fst r) = isReady ui
        /\ sendDisabled (fst r) = sendDisabled ui
        /\ (forall c m,
              initializationError srv = Some (c :: m) ->
              statusText (fst r) = lit "Error: " ++ ToString (JString (c :: m))
              /\ snd r = None
              /\ In (lit "error") (statusClasses (fst r))
              /\ ~ In (lit "ready") (statusClasses (fst r)))
        /\ (initializationError srv = None \/ initializationError srv = Some [] ->
            statusText (fst r) = lit "Initializing..."
            /\ snd r = Some 2000
            /\ statusClasses (fst r) = statusClasses ui)).
Proof.
  intros ToString ui srv r. unfold r. rewrite checkHealth_of_health.
  split; intros Hi; rewrite Hi.
  - simpl. repeat split.
    + unfold classList_remove. apply filter_In. split.
      * apply in_classList_add.
      * reflexivity.
    + apply not_in_classList_remove.
  - split; [destruct (initializationError srv) as [[|c m]|]; reflexivity|].
    split; [destruct (initializationError srv) as [[|c m]|]; reflexivity|].
    split.
    + intros c m He. rewrite He. simpl. repeat split.
      * unfold classList_remove. apply filter_In. split.
        -- apply in_classList_add.
        -- reflexivity.
      * apply not_in_classList_remove.
    + intros [He|He]; rewrite He; repeat split.
Qed.

Lemma checkHealth_follows_server_witness :
  isReady (fst (checkHealth string_of (Some (body (get_health ready_server)))
                  {| isReady := false; statusText := []; statusClasses := [];
                     sendDisabled := true; inputValue := [] |}))
  = true.
Proof.
  exact (proj1 (proj1 (checkHealth_follows_server string_of
                         {| isReady := false; statusText := []; statusClasses := [];
                            sendDisabled := true; inputValue := [] |}
                         ready_server) eq_refl)).
Defined.

(** X20. Whatever the health request came to, [checkHealth] never makes a
    ready page not ready, never disables the send button and never touches
    the typed text; the poll it leaves, if any, is after 2000 or 5000 ms.
    When the fetch or the parse fails, or the answer is [null], it shows
    'Connection error', marks the status as error and polls again after
    5000 ms. *)
Theorem checkHealth_effects :
  forall (ToString : JSValue -> jsstring) (outcome : option JSValue) (ui : Page_ui),
    let r := checkHealth ToString outcome ui in
    (isReady ui = true -> isReady (fst r) = true)
    /\ (sendDisabled ui = false -> sendDisabled (fst r) = false)
    /\ inputValue (fst r) = inputValue ui
    /\ In (snd r) [None; Some 2000; Some 5000]
    /\ (outcome = None \/ outcome = Some JNull ->
        statusText (fst r) = lit "Connection error"
        /\ In (lit "error") (statusClasses (fst r))
        /\ snd r = Some 5000
        /\ isReady (fst r) = isReady ui).
Proof.
  intros ToString outcome ui r. unfold r, checkHealth, connection_error.
  split; [|split; [|split; [|split]]].
  - intros Hr.
    destruct outcome as [data|]; [|exact Hr].
    destruct (property (lit "status") data) as [st|]; [|exact Hr].
    destruct (match st with JString s => _ | _ => false end); [reflexivity|].
    destruct (property (lit "error") data) as [err|]; [|exact Hr].
    destruct (truthy err); exact Hr.
  - intros Hd.
    destruct outcome as [data|]; [|exact Hd].
    destruct (property (lit "status") data) as [st|]; [|exact Hd].
    destruct (match st with JString s => _ | _ => false end); [reflexivity|].
    destruct (property (lit "error") data) as [err|]; [|exact Hd].
    destruct (truthy err); exact Hd.
  - destruct outcome as [data|]; [|reflexivity].
    destruct (property (lit "status") data) as [st|]; [|reflexivity].
    destruct (match st with JString s => _ | _ => false end); [reflexivity|].
    destruct (property (lit "error") data) as [err|]; [|reflexivity].
    destruct (truthy err); reflexivity.
  - destruct outcome as [data|]; [|simpl; tauto].
    destruct (property (lit "status") data) as [st|]; [|simpl; tauto].
    destruct (match st with JString s => _ | _ => false end); [simpl; tauto|].
    destruct (property (lit "error") data) as [err|]; [|simpl; tauto].
    destruct (truthy err); simpl; tauto.
  - intros [Ho|Ho]; subst outcome; simpl; repeat split; apply in_classList_add.
Qed.

Lemma checkHealth_effects_witness :
  snd (checkHealth string_of None
         {| isReady := true; statusText := lit "Ready"; statusClasses := [lit "ready"];
            sendDisabled := false; inputValue := lit "hi" |})
  = Some 5000.
Proof.
  exact (proj1 (proj2 (proj2
           (proj2 (proj2 (proj2 (proj2
              (checkHealth_effects string_of None
                 {| isReady := true; statusText := lit "Ready";
                    statusClasses := [lit "ready"];
                    sendDisabled := false; inputValue := lit "hi" |}))))
              (or_introl eq_refl))))).
Defined.

(** X21. A page that was not ready and that a health check made ready saw
    an initialised server; whatever requests that server has answered
    since, and whatever the user types, a body that [sendMessage] then
    posts is answered neither 503 nor 400, and its trimmed text reaches
    [query]. *)
Theorem ready_page_is_served :
  forall (ToString : JSValue -> jsstring) (ui : Page_ui) (srv : Server)
         (rs : list Request) (gen : Generation) (v : jsstring) (reqBody : JSValue),
    isReady ui = false ->
    isReady (fst (checkHealth ToString (Some (body (get_health srv))) ui)) = true ->
    sendMessage_request
      (typing v (fst (checkHealth ToString (Some (body (get_health srv))) ui)))
    = Some reqBody ->
    let h := post_chat gen reqBody (serve_all rs srv) in
    isInitialized srv = true
    /\ status (response h) <> 503
    /\ status (response h) <> 400
    /\ queries h = [trim v].
Proof.
  intros ToString ui srv rs gen v reqBody Hui Hready Hsend h.
  assert (Hi : isInitialized srv = true).
  { rewrite checkHealth_of_health in Hready.
    destruct (isInitialized srv); [reflexivity|].
    destruct (initializationError srv) as [[|c m]|]; simpl in Hready; congruence. }
  split; [exact Hi|].
  destruct (serve_all_frame rs srv) as [Hf _]. rewrite Hi in Hf.
  destruct (sent_message_is_accepted gen _ (serve_all rs srv) Hsend Hf)
    as [H400 [H503 Hq]].
  repeat split; assumption.
Qed.

Lemma ready_page_is_served_witness :
  queries (post_chat (answering (lit "a"))
             (JObject [(lit "message", JString (lit "hi"))])
             (serve_all [PostClear] ready_server))
  = [lit "hi"].
Proof.
  exact (proj2 (proj2 (proj2
           (ready_page_is_served string_of
              {| isReady := false; statusText := []; statusClasses := [];
                 sendDisabled := true; inputValue := [] |}
              ready_server [PostClear] (answering (lit "a")) (lit " hi ")
              eq_refl eq_refl eq_refl)))).
Defined.
